(** * Authorization decisions of [chain/net/http/authz]

    A shallow embedding of [net/http/authz/authorizer.go] and the
    properties of its grant matching, policy lookup and grant registry.

    Conventions of the embedding:
    - a Go [string] and a Go [[]byte] are both a [string] (a sequence of
      8-bit characters), so the conversions [string(b)] and [[]byte(s)]
      are the identity;
    - a Go slice is a [list]; a nil slice and an empty slice are both
      [[]] (the code only ever takes [len] of them and ranges over them);
    - a Go map is a [gmap]; reading an absent key yields the zero value,
      written [default [] (m !! k)] for slice-valued maps;
    - a Go [error] result is an [option error], [None] being [nil];
    - the request context carries what package [authn] stored in it. *)

From stdpp Require Import base strings list gmap.

Open Scope string_scope.
Open Scope list_scope.
Open Scope nat_scope.

(** ** Data model *)

Module pkix.

(** The fields of [crypto/x509/pkix.Name] the matcher reads. *)
Record Name : Type := mkName {
  Country : list string;
  Organization : list string;
  OrganizationalUnit : list string;
  Locality : list string;
  Province : list string;
  StreetAddress : list string;
  PostalCode : list string;
  SerialNumber : string;
  CommonName : string
}.

(** The zero value [pkix.Name{}]. *)
Definition zero : Name := mkName [] [] [] [] [] [] [] EmptyString EmptyString.

End pkix.

(** [x509.Certificate], reduced to the field read by [authorized]. *)
Record Certificate : Type := mkCertificate { Subject : pkix.Name }.

(** The [Grant] protobuf message. *)
Record Grant : Type := mkGrant {
  GuardType : string;
  GuardData : string;
  Policy : string;
  CreatedAt : string
}.

(** The [GrantList] protobuf message; [Grants] is [GetGrants]. *)
Record GrantList : Type := mkGrantList { Grants : list Grant }.

(** Go error values: [errors.New] and [errors.Wrap] of package
    [chain/errors].  Errors of the libraries are [New] values too. *)
Inductive error : Type :=
| New (msg : string)
| Wrap (err : error).

(** The message of an error, [err.Error()]. *)
Fixpoint Error (e : error) : string :=
  match e with
  | New msg => msg
  | Wrap err => Error err
  end.

Definition ErrNotAuthorized : error := New "not authorized".

(** The error [Authorize] creates for a route without policies. *)
Definition errMissingPolicy : error := New "missing policy on this route".

(** What the request context holds: [authn.Token(ctx)],
    [authn.X509Certs(ctx)] and [authn.Localhost(ctx)].  [Token] is the
    empty string when the request presented no access token. *)
Record context_Context : Type := mkContext {
  Token : string;
  X509Certs : list Certificate;
  Localhost : bool
}.

(** [http.Request], reduced to the fields [Authorize] reads. *)
Record Request : Type := mkRequest {
  RequestURI : string;
  Ctx : context_Context
}.

(** The [Authorizer] struct.  [raftDB] is the key-value state that a
    stale read of the raft service returns. *)
Record Authorizer : Type := mkAuthorizer {
  raftDB : gmap string string;
  raftPrefix : string;
  policyByRoute : gmap string (list string);
  extraGrants : gmap string (list Grant)
}.

Definition builtinGrants : list Grant := [mkGrant "any" EmptyString "public" EmptyString].

(** The target of [json.Unmarshal] in [accessTokenGuardData]:
    [struct{ ID string }]. *)
Record tokenData : Type := mkTokenData { ID : string }.

(** How a call ended: it returned, or it panicked with a value. *)
Inductive outcome : Type :=
| Returned
| Panicked (err : error).

(** ** X.509 subject matching *)

(** [matchesString]. *)
Definition matchesString (pat x : string) : bool :=
  bool_decide (pat = EmptyString) || bool_decide (pat = x).

(** The loop of [matchesStrings], [for i, s := range pat], started at
    index [i].  [None] is the run-time panic of an index out of range in
    [x[i]]. *)
Fixpoint matchesStrings_range (i : nat) (pat x : list string) : option bool :=
  match pat with
  | [] => Some true
  | s :: pat' =>
      match x !! i with
      | None => None
      | Some xi =>
          if bool_decide (s ≠ xi) then Some false
          else matchesStrings_range (S i) pat' x
      end
  end.

(** The body of [matchesStrings], with the panic made explicit. *)
Definition matchesStrings_body (pat x : list string) : option bool :=
  if bool_decide (length x < length pat) then Some false
  else matchesStrings_range 0 pat x.

(** [matchesStrings]; [matchesStrings_body_total] below shows that the body
    never panics, so no case is lost here. *)
Definition matchesStrings (pat x : list string) : bool :=
  default false (matchesStrings_body pat x).

(** [matchesX509]. *)
Definition matchesX509 (pat x : pkix.Name) : bool :=
  matchesString (pkix.CommonName pat) (pkix.CommonName x) &&
  matchesStrings (pkix.Country pat) (pkix.Country x) &&
  matchesStrings (pkix.Organization pat) (pkix.Organization x) &&
  matchesStrings (pkix.OrganizationalUnit pat) (pkix.OrganizationalUnit x) &&
  matchesStrings (pkix.Locality pat) (pkix.Locality x) &&
  matchesStrings (pkix.Province pat) (pkix.Province x) &&
  matchesStrings (pkix.StreetAddress pat) (pkix.StreetAddress x) &&
  matchesStrings (pkix.PostalCode pat) (pkix.PostalCode x) &&
  matchesString (pkix.SerialNumber pat) (pkix.SerialNumber x).

(** The inner loop of the [x509] case of [authorized]: [true] when the
    [return true] fired for one of the certificates. *)
Fixpoint x509_certs (pattern : pkix.Name) (certs : list Certificate) : bool :=
  match certs with
  | [] => false
  | cert :: certs' =>
      if matchesX509 pattern (Subject cert) then true
      else x509_certs pattern certs'
  end.

(** ** Route keys *)

(** [strings.TrimRight(s, cutset)] for a cutset of one-byte characters, as
    the ["/"] that [Authorize] passes. *)
Fixpoint TrimRight (s cutset : string) : string :=
  match s with
  | EmptyString => EmptyString
  | String c s' =>
      match TrimRight s' cutset with
      | EmptyString =>
          if bool_decide (c ∈ String.list_ascii_of_string cutset) then EmptyString
          else String c EmptyString
      | t => String c t
      end
  end.

(** ** The libraries the package calls

    [name.Parse] and [name.Format] of [chain/crypto/x509/name],
    [json.Unmarshal] at the target type of [accessTokenGuardData], and
    [proto.Unmarshal] at [*GrantList].  The two decoders take the value
    their target holds before the call and give the value it holds after
    it, with the error they return. *)
Class Libraries : Type := mkLibraries {
  name_Parse : string → pkix.Name * option error;
  name_Format : pkix.Name → string * option error;
  json_Unmarshal : string → tokenData → tokenData * option error;
  proto_Unmarshal : string → GrantList → GrantList * option error
}.

Section Authz.

Context {L : Libraries}.

(** [accessTokenGuardData]: the error of [json.Unmarshal] is dropped. *)
Definition accessTokenGuardData (grant : Grant) : string :=
  let v := mkTokenData EmptyString in
  let '(v, _) := json_Unmarshal (GuardData grant) v in
  ID v.

(** [authorized]: the loop over the grants; a grant that does not return
    [true] leaves the [switch] and the loop goes on with the next one. *)
Fixpoint authorized (ctx : context_Context) (grants : list Grant) : bool :=
  match grants with
  | [] => false
  | g :: grants' =>
      if bool_decide (GuardType g = "access_token") then
        if bool_decide (accessTokenGuardData g = Token ctx) then true
        else authorized ctx grants'
      else if bool_decide (GuardType g = "x509") then
        match name_Parse (GuardData g) with
        | (_, Some err) => authorized ctx grants'
        | (pattern, None) =>
            if x509_certs pattern (X509Certs ctx) then true
            else authorized ctx grants'
        end
      else if bool_decide (GuardType g = "localhost") then
        if Localhost ctx then true else authorized ctx grants'
      else if bool_decide (GuardType g = "any") then true
      else authorized ctx grants'
  end.

(** The loop of [grantsByPolicies], entered with the grants collected so
    far.  The result is the pair the function returns. *)
Fixpoint grantsByPolicies_from (a : Authorizer) (grants : list Grant)
    (policies : list string) : list Grant * option error :=
  match policies with
  | [] => (grants, None)
  | p :: policies' =>
      let grants := grants ++ default [] (extraGrants a !! p) in
      match raftDB a !! (raftPrefix a +:+ p) with
      | None => grantsByPolicies_from a grants policies'
      | Some data =>
          match proto_Unmarshal data (mkGrantList []) with
          | (_, Some err) => ([], Some (Wrap err))
          | (grantList, None) =>
              grantsByPolicies_from a (grants ++ Grants grantList) policies'
          end
      end
  end.

(** [grantsByPolicies]. *)
Definition grantsByPolicies (a : Authorizer) (policies : list string)
    : list Grant * option error :=
  grantsByPolicies_from a [] policies.

(** [Authorize]. *)
Definition Authorize (a : Authorizer) (req : Request) : option error :=
  let policies :=
    default [] (policyByRoute a !! TrimRight (RequestURI req) "/") in
  if bool_decide (length policies = 0) then Some errMissingPolicy
  else
    match grantsByPolicies a policies with
    | (_, Some err) => Some (Wrap err)
    | (grants, None) =>
        if negb (authorized (Ctx req) grants) then Some ErrNotAuthorized
        else None
    end.

(** [GrantInternal]; [now] is [time.Now().UTC().Format(time.RFC3339)].
    The result is the authorizer after the call and how the call ended. *)
Definition GrantInternal (a : Authorizer) (subj : pkix.Name) (now : string)
    : Authorizer * outcome :=
  match name_Format subj with
  | (_, Some err) => (a, Panicked err)
  | (data, None) =>
      let g := mkGrant "x509" data "internal" now in
      (mkAuthorizer (raftDB a) (raftPrefix a) (policyByRoute a)
         (<["internal" := default [] (extraGrants a !! "internal") ++ [g]]>
            (extraGrants a)),
       Returned)
  end.

End Authz.

(** [NewAuthorizer]. *)
Definition NewAuthorizer (rdb : gmap string string) (prefix : string)
    (policyMap : gmap string (list string)) : Authorizer :=
  mkAuthorizer rdb prefix policyMap
    (foldl (λ m g, <[Policy g := default [] (m !! Policy g) ++ [g]]> m)
       ∅ builtinGrants).

(** ** Specification-side definitions *)

(** A single-valued field of a pattern is satisfied when the pattern
    leaves it empty or the subject has exactly that value. *)
Definition field_satisfied (pat x : string) : Prop :=
  pat = EmptyString ∨ pat = x.

(** A multi-valued field of a pattern is satisfied when the pattern leaves
    it empty, or the subject has at least as many values and its first
    [length pat] values are those of the pattern, in order. *)
Definition sequence_satisfied (pat x : list string) : Prop :=
  pat = [] ∨ (length pat ≤ length x ∧ take (length pat) x = pat).

(** A certificate subject satisfies an X.509 pattern when each of the nine
    fields is satisfied. *)
Definition subject_satisfies (pat x : pkix.Name) : Prop :=
  field_satisfied (pkix.CommonName pat) (pkix.CommonName x) ∧
  field_satisfied (pkix.SerialNumber pat) (pkix.SerialNumber x) ∧
  sequence_satisfied (pkix.Organization pat) (pkix.Organization x) ∧
  sequence_satisfied (pkix.OrganizationalUnit pat) (pkix.OrganizationalUnit x) ∧
  sequence_satisfied (pkix.Country pat) (pkix.Country x) ∧
  sequence_satisfied (pkix.Locality pat) (pkix.Locality x) ∧
  sequence_satisfied (pkix.Province pat) (pkix.Province x) ∧
  sequence_satisfied (pkix.StreetAddress pat) (pkix.StreetAddress x) ∧
  sequence_satisfied (pkix.PostalCode pat) (pkix.PostalCode x).

(** The guard types [authorized] knows. *)
Definition knownGuardTypes : list string :=
  ["access_token"; "x509"; "localhost"; "any"].

(** When the guard of one grant matches a context: the four cases of the
    [switch] in [authorized] that reach a [return true]. *)
Inductive guard_matches `{L : Libraries} (ctx : context_Context) (g : Grant)
    : Prop :=
| matches_access_token :
    GuardType g = "access_token" →
    accessTokenGuardData g = Token ctx →
    guard_matches ctx g
| matches_x509 (pattern : pkix.Name) (cert : Certificate) :
    GuardType g = "x509" →
    name_Parse (GuardData g) = (pattern, None) →
    cert ∈ X509Certs ctx →
    matchesX509 pattern (Subject cert) = true →
    guard_matches ctx g
| matches_localhost :
    GuardType g = "localhost" →
    Localhost ctx = true →
    guard_matches ctx g
| matches_any :
    GuardType g = "any" →
    guard_matches ctx g.

(** The grants one policy contributes to a fetch that succeeds: those kept
    in the process, then those decoded from the store. *)
Definition policyGrants `{L : Libraries} (a : Authorizer) (p : string)
    : list Grant :=
  default [] (extraGrants a !! p) ++
  match raftDB a !! (raftPrefix a +:+ p) with
  | None => []
  | Some data => Grants (fst (proto_Unmarshal data (mkGrantList [])))
  end.

(** The stored list of policy [p] is present and does not decode. *)
Definition undecodable `{L : Libraries} (a : Authorizer) (p : string) : Prop :=
  ∃ data err,
    raftDB a !! (raftPrefix a +:+ p) = Some data ∧
    snd (proto_Unmarshal data (mkGrantList [])) = Some err.

(** ** Stand-ins for the libraries, for the examples

    Finite tables that let every branch of the package run on concrete
    values.  They keep what the decoders guarantee: [json.Unmarshal]
    checks the syntax of the whole document before it writes to its
    target, so a document that is not JSON leaves the target as it was;
    the object with the one member [id] sets the field [ID]. *)
Module Examples.

(** The double-quote character, and the JSON document [{"id":"<id>"}]. *)
Definition dquote : string := String (Ascii.ascii_of_nat 34) EmptyString.

Definition jsonID (id : string) : string :=
  "{" +:+ dquote +:+ "id" +:+ dquote +:+ ":" +:+ dquote +:+ id +:+ dquote +:+ "}".

Definition acmePattern : pkix.Name :=
  pkix.mkName [] ["Acme"] [] [] [] [] [] EmptyString EmptyString.

Definition peerName : pkix.Name :=
  pkix.mkName [] [] [] [] [] [] [] EmptyString "peer".

Definition acmeEng : pkix.Name :=
  pkix.mkName [] ["Acme"; "Eng"] [] [] [] [] [] EmptyString EmptyString.

Definition otherOrg : pkix.Name :=
  pkix.mkName [] ["Other"] [] [] [] [] [] EmptyString EmptyString.

Definition tokenGrant : Grant :=
  mkGrant "access_token" (jsonID "tok123") "client-readwrite" EmptyString.

Definition parse (s : string) : pkix.Name * option error :=
  if bool_decide (s = "O=Acme") then (acmePattern, None)
  else if bool_decide (s = "CN=peer") then (peerName, None)
  else if bool_decide (s = EmptyString) then (pkix.zero, None)
  else (pkix.zero, Some (New "invalid name")).

Definition format (n : pkix.Name) : string * option error :=
  if bool_decide (pkix.CommonName n = "peer") then ("CN=peer", None)
  else (EmptyString, Some (New "invalid name")).

Definition unmarshalJSON (data : string) (v : tokenData)
    : tokenData * option error :=
  if bool_decide (data = jsonID "tok123") then (mkTokenData "tok123", None)
  else if bool_decide (data = jsonID EmptyString) then (mkTokenData EmptyString, None)
  else (v, Some (New "syntax error")).

Definition unmarshalProto (data : string) (v : GrantList)
    : GrantList * option error :=
  if bool_decide (data = EmptyString) then (v, None)
  else if bool_decide (data = "<tokenGrant>") then (mkGrantList [tokenGrant], None)
  else (v, Some (New "proto: cannot parse")).

Definition libs : Libraries :=
  mkLibraries parse format unmarshalJSON unmarshalProto.

(** Grants and contexts of the examples. *)
Definition emptyIDGrant : Grant :=
  mkGrant "access_token" (jsonID EmptyString) "client-readwrite" EmptyString.

Definition malformedGrant : Grant :=
  mkGrant "access_token" "{" "client-readwrite" EmptyString.

Definition acmeGrant : Grant :=
  mkGrant "x509" "O=Acme" "network" EmptyString.

Definition anyNameGrant : Grant :=
  mkGrant "x509" EmptyString "network" EmptyString.

Definition unknownGrant : Grant :=
  mkGrant "token" (jsonID "tok123") "client-readwrite" EmptyString.

(** A request without any credential, from a remote address. *)
Definition anonymous : context_Context := mkContext EmptyString [] false.

Definition withToken : context_Context := mkContext "tok123" [] false.

Definition withAcmeEng : context_Context :=
  mkContext EmptyString [mkCertificate acmeEng] false.

(** An authorizer whose store holds [tokenGrant] for [client-readwrite],
    and a list that does not decode for [monitoring]. *)
Definition store : gmap string string :=
  <["grants/client-readwrite" := "<tokenGrant>"]>
    (<["grants/monitoring" := "garbage"]> ∅).

Definition routes : gmap string (list string) :=
  <["/accounts/create" := ["client-readwrite"]]>
    (<["/info" := ["public"]]> ∅).

Definition authorizer : Authorizer := NewAuthorizer store "grants/" routes.

End Examples.

(** ** The name comparison of the package *)

(** The loop of [equalX509Name], [for i := range a.OrganizationalUnit],
    over the indices [indices]; [a] and [b] are the two slices it indexes.
    [None] is the run-time panic of an index out of range. *)
Fixpoint equalX509Name_range (indices : list nat) (a b : list string)
    : option bool :=
  match indices with
  | [] => Some true
  | i :: indices' =>
      match a !! i, b !! i with
      | Some ai, Some bi =>
          if bool_decide (ai ≠ bi) then Some false
          else equalX509Name_range indices' a b
      | _, _ => None
      end
  end.

(** The body of [equalX509Name], with the panic made explicit. *)
Definition equalX509Name_body (a b : pkix.Name) : option bool :=
  if bool_decide (pkix.CommonName a ≠ pkix.CommonName b) then Some false
  else if bool_decide (length (pkix.OrganizationalUnit a)
                       ≠ length (pkix.OrganizationalUnit b)) then Some false
  else equalX509Name_range (seq 0 (length (pkix.OrganizationalUnit a)))
         (pkix.OrganizationalUnit a) (pkix.OrganizationalUnit b).

(** [equalX509Name]. *)
Definition equalX509Name (a b : pkix.Name) : bool :=
  default false (equalX509Name_body a b).

(** ** Runs of calls, and shapes of inputs *)

(** Successive calls of [GrantInternal], one per subject and time, on the
    same authorizer; a panic ends the run. *)
Fixpoint GrantInternal_all `{L : Libraries} (a : Authorizer)
    (calls : list (pkix.Name * string)) : Authorizer * outcome :=
  match calls with
  | [] => (a, Returned)
  | (subj, now) :: calls' =>
      match GrantInternal a subj now with
      | (a', Returned) => GrantInternal_all a' calls'
      | (a', Panicked err) => (a', Panicked err)
      end
  end.

(** The grant that [GrantInternal] builds for a subject and a time. *)
Definition internalGrant `{L : Libraries} (call : pkix.Name * string) : Grant :=
  mkGrant "x509" (fst (name_Format (fst call))) "internal" (snd call).

(** A string made of slashes only. *)
Definition only_slashes (t : string) : Prop :=
  Forall (λ c, c = Ascii.ascii_of_nat 47) (String.list_ascii_of_string t).

(** The fetch of the grants of [policies] meets no stored list that does
    not decode. *)
Definition decodable `{L : Libraries} (a : Authorizer)
    (policies : list string) : Prop :=
  ∀ p, p ∈ policies → ¬ undecodable a p.

(** When the guard of a grant matches a context, in the words of the
    specification of the matcher: an [access_token] guard when a token is
    presented and the identifier of the guard is exactly that token (an
    absent token satisfies no guard, not even one with the empty
    identifier); an [x509] guard when one of the presented subjects
    satisfies its pattern; a [localhost] guard when the connection is
    local; an [any] guard always. *)
Inductive spec_matches `{L : Libraries} (ctx : context_Context) (g : Grant)
    : Prop :=
| spec_access_token :
    GuardType g = "access_token" →
    Token ctx ≠ EmptyString →
    accessTokenGuardData g = Token ctx →
    spec_matches ctx g
| spec_x509 (pattern : pkix.Name) (cert : Certificate) :
    GuardType g = "x509" →
    name_Parse (GuardData g) = (pattern, None) →
    cert ∈ X509Certs ctx →
    subject_satisfies pattern (Subject cert) →
    spec_matches ctx g
| spec_localhost :
    GuardType g = "localhost" →
    Localhost ctx = true →
    spec_matches ctx g
| spec_any :
    GuardType g = "any" →
    spec_matches ctx g.

(** A deployment whose store holds, for [client-readwrite], the list with
    the one grant [Examples.emptyIDGrant], and a request for
    [/accounts/create] that presents no credential. *)
Module Defect.

Definition unmarshalProto (data : string) (v : GrantList)
    : GrantList * option error :=
  if bool_decide (data = "<emptyIDGrant>")
  then (mkGrantList [Examples.emptyIDGrant], None)
  else Examples.unmarshalProto data v.

Definition libs : Libraries :=
  mkLibraries Examples.parse Examples.format Examples.unmarshalJSON
    unmarshalProto.

Definition store : gmap string string :=
  <["grants/client-readwrite" := "<emptyIDGrant>"]> ∅.

Definition routes : gmap string (list string) :=
  <["/accounts/create" := ["client-readwrite"]]> ∅.

Definition authorizer : Authorizer := NewAuthorizer store "grants/" routes.

Definition request : Request :=
  mkRequest "/accounts/create" Examples.anonymous.

End Defect.

(** Values of the examples that follow. *)
Module Scenarios.

Definition peerCall : pkix.Name * string :=
  (Examples.peerName, "2017-03-01T00:00:00Z").

Definition peerGrant : Grant :=
  mkGrant "x509" "CN=peer" "internal" "2017-03-01T00:00:00Z".

Definition peerEng : pkix.Name :=
  pkix.mkName [] [] ["Eng"] [] [] [] [] EmptyString "peer".

Definition withPeer : context_Context :=
  mkContext EmptyString [mkCertificate peerEng] false.

Definition fromLocalhost : context_Context :=
  mkContext EmptyString [] true.

Definition localhostGrant : Grant :=
  mkGrant "localhost" EmptyString "monitoring" EmptyString.

Definition routes : gmap string (list string) :=
  <["/accounts/create" := ["client-readwrite"; "internal"]]>
    (<["/info" := ["public"]]>
       (<["/config" := ["monitoring"; "public"]]> ∅)).

Definition store : gmap string string :=
  <["grants/client-readwrite" := "<tokenGrant>"]>
    (<["grants/monitoring" := "garbage"]> ∅).

Definition authorizer : Authorizer := NewAuthorizer store "grants/" routes.

(** The authorizer after the peer was registered once. *)
Definition registered : Authorizer :=
  fst (GrantInternal (L := Examples.libs) authorizer Examples.peerName
         "2017-03-01T00:00:00Z").

Definition peerEngOps : pkix.Name :=
  pkix.mkName [] [] ["Eng"; "Ops"] [] [] [] [] EmptyString "peer".

Definition withPeerLocal : context_Context :=
  mkContext EmptyString
    [mkCertificate Examples.otherOrg; mkCertificate peerEng] true.

Definition anyGrant : Grant :=
  mkGrant "any" EmptyString "public" EmptyString.

(** The routes with the policies of [/accounts/create] in another order,
    one of them twice. *)
Definition routes' : gmap string (list string) :=
  <["/accounts/create" := ["internal"; "client-readwrite"; "internal"]]>
    routes.

(** A store that differs from [store] at [monitoring] only. *)
Definition store' : gmap string string :=
  <["grants/monitoring" := "<tokenGrant>"]> store.

(** Routes of a deployment without public route. *)
Definition privateRoutes : gmap string (list string) :=
  <["/accounts/create" := ["client-readwrite"; "internal"]]> ∅.

End Scenarios.

(** ** X.509 subject matching: proofs *)

Lemma matchesString_spec (pat x : string) :
  matchesString pat x = true ↔ field_satisfied pat x.
Proof.
  unfold matchesString, field_satisfied.
  rewrite orb_true_iff, !bool_decide_eq_true. reflexivity.
Qed.

(** Within bounds the loop compares the pattern with the values of [x] from
    index [i] on. *)
Lemma matchesStrings_range_spec (pat x : list string) (i : nat) :
  i + length pat ≤ length x →
  matchesStrings_range i pat x
  = Some (bool_decide (take (length pat) (drop i x) = pat)).
Proof.
  revert i. induction pat as [|s pat IH]; intros i Hlen; simpl in *.
  - done.
  - destruct (lookup_lt_is_Some_2 x i) as [xi Hxi]; [lia|].
    rewrite Hxi.
    rewrite (drop_S x xi i Hxi). simpl.
    case_bool_decide as Hs.
    + f_equal. symmetry. apply bool_decide_eq_false_2. congruence.
    + subst xi.
      rewrite IH by lia. f_equal.
      apply bool_decide_ext. split; intros H; congruence.
Qed.

(** The index [x[i]] of [matchesStrings] is never out of range. *)
Lemma matchesStrings_body_total (pat x : list string) :
  is_Some (matchesStrings_body pat x).
Proof.
  unfold matchesStrings_body. case_bool_decide as Hlen; [by eexists|].
  rewrite matchesStrings_range_spec by lia. by eexists.
Qed.

Lemma matchesStrings_prefix (pat x : list string) :
  matchesStrings pat x = true ↔
  length pat ≤ length x ∧ take (length pat) x = pat.
Proof.
  unfold matchesStrings, matchesStrings_body.
  case_bool_decide as Hlen; simpl.
  - split; [done|]. intros [? _]. lia.
  - rewrite matchesStrings_range_spec by lia. simpl.
    rewrite drop_0, bool_decide_eq_true. split; [|tauto].
    intros ?; split; [lia|done].
Qed.

Lemma matchesStrings_spec (pat x : list string) :
  matchesStrings pat x = true ↔ sequence_satisfied pat x.
Proof.
  rewrite matchesStrings_prefix. unfold sequence_satisfied.
  split; [tauto|]. intros [->|?]; [|done].
  simpl. split; [lia|by rewrite take_0].
Qed.

Lemma matchesX509_spec (pat x : pkix.Name) :
  matchesX509 pat x = true ↔ subject_satisfies pat x.
Proof.
  unfold matchesX509, subject_satisfies.
  rewrite !andb_true_iff, !matchesString_spec, !matchesStrings_spec.
  tauto.
Qed.

Lemma x509_certs_spec (pattern : pkix.Name) (certs : list Certificate) :
  x509_certs pattern certs = true ↔
  ∃ cert, cert ∈ certs ∧ matchesX509 pattern (Subject cert) = true.
Proof.
  induction certs as [|c certs IH]; simpl.
  - split; [done|]. intros (cert & Hin & _). by apply elem_of_nil in Hin.
  - destruct (matchesX509 pattern (Subject c)) eqn:Hc.
    + split; [|done]. intros _. exists c. split; [left|done].
    + rewrite IH. split.
      * intros (cert & Hin & Hm). exists cert. split; [by right|done].
      * intros (cert & Hin & Hm). apply elem_of_cons in Hin as [->|Hin].
        -- congruence.
        -- by exists cert.
Qed.

(** ** The loop over the grants *)

Section Authorized.

Context {L : Libraries}.

(** Each grant is decided on its own: the loop is a disjunction. *)
Lemma authorized_cons (ctx : context_Context) (g : Grant) (grants : list Grant) :
  authorized ctx (g :: grants) = authorized ctx [g] || authorized ctx grants.
Proof.
  simpl.
  repeat case_bool_decide; repeat case_match;
    rewrite ?orb_false_l, ?orb_true_l; reflexivity.
Qed.

Lemma authorized_app (ctx : context_Context) (l1 l2 : list Grant) :
  authorized ctx (l1 ++ l2) = authorized ctx l1 || authorized ctx l2.
Proof.
  induction l1 as [|g l1 IH]; [done|].
  rewrite <- app_comm_cons, (authorized_cons ctx g (l1 ++ l2)), IH.
  rewrite (authorized_cons ctx g l1). by rewrite orb_assoc.
Qed.

(** A single grant is accepted exactly when its guard matches. *)
Lemma authorized_single (ctx : context_Context) (g : Grant) :
  authorized ctx [g] = true ↔ guard_matches ctx g.
Proof.
  simpl. split.
  - repeat case_bool_decide; try done.
    + intros _. by apply matches_access_token.
    + destruct (name_Parse (GuardData g)) as [pattern [err|]] eqn:Hp; [done|].
      destruct (x509_certs pattern (X509Certs ctx)) eqn:Hc; [|done].
      apply x509_certs_spec in Hc as (cert & Hin & Hm).
      intros _. by eapply matches_x509.
    + destruct (Localhost ctx) eqn:Hl; [|done].
      intros _. by apply matches_localhost.
    + intros _. by apply matches_any.
  - intros [Ht Hid|pattern cert Ht Hp Hin Hm|Ht Hl|Ht]; rewrite Ht; simpl.
    + by rewrite bool_decide_eq_true_2.
    + rewrite Hp.
      assert (x509_certs pattern (X509Certs ctx) = true) as ->; [|done].
      apply x509_certs_spec. by exists cert.
    + by rewrite Hl.
    + done.
Qed.

Lemma authorized_iff (ctx : context_Context) (grants : list Grant) :
  authorized ctx grants = true ↔ ∃ g, g ∈ grants ∧ guard_matches ctx g.
Proof.
  induction grants as [|g grants IH].
  - split; [done|]. intros (g & Hin & _). by apply elem_of_nil in Hin.
  - rewrite authorized_cons, orb_true_iff, authorized_single, IH. split.
    + intros [Hg|(g' & Hin & Hg')].
      * exists g. split; [left|done].
      * exists g'. split; [by right|done].
    + intros (g' & Hin & Hg'). apply elem_of_cons in Hin as [->|Hin].
      * by left.
      * right. by exists g'.
Qed.

(** A grant whose guard does not match is passed over. *)
Lemma authorized_skip (ctx : context_Context) (g : Grant)
    (before after : list Grant) :
  ¬ guard_matches ctx g →
  authorized ctx (before ++ g :: after) = authorized ctx (before ++ after).
Proof.
  intros Hno. rewrite !authorized_app, (authorized_cons ctx g after).
  destruct (authorized ctx [g]) eqn:Hg; [|done].
  apply authorized_single in Hg. contradiction.
Qed.

End Authorized.

(** ** Fetching the grants of a list of policies *)

Section Registry.

Context {L : Libraries}.

(** The two ways the loop of [grantsByPolicies] ends: every stored list
    decoded and the grants of the policies were appended in order, or some
    stored list did not decode and its error is returned, wrapped. *)
Lemma grantsByPolicies_from_cases (a : Authorizer) (policies : list string)
    (grants : list Grant) :
  (grantsByPolicies_from a grants policies
     = (grants ++ (policies ≫= policyGrants a), None) ∧
   ∀ p, p ∈ policies → ¬ undecodable a p)
  ∨
  (∃ p data err,
     p ∈ policies ∧
     raftDB a !! (raftPrefix a +:+ p) = Some data ∧
     snd (proto_Unmarshal data (mkGrantList [])) = Some err ∧
     grantsByPolicies_from a grants policies = ([], Some (Wrap err))).
Proof.
  revert grants. induction policies as [|p policies IH]; intros grants.
  - left. simpl. rewrite app_nil_r. split; [done|].
    intros p Hin. by apply elem_of_nil in Hin.
  - cbn [grantsByPolicies_from].
    destruct (raftDB a !! (raftPrefix a +:+ p)) as [data|] eqn:Hget.
    + destruct (proto_Unmarshal data (mkGrantList [])) as [grantList [err|]]
        eqn:Hdec.
      * right. exists p, data, err. rewrite Hdec. repeat split; [left|done].
      * destruct (IH ((grants ++ default [] (extraGrants a !! p))
                        ++ Grants grantList))
          as [[Heq Hall]|(p' & data' & err' & Hin & Hget' & Hdec' & Heq)].
        -- left. split.
           ++ rewrite Heq. cbn [mbind list_bind]. unfold policyGrants at 2.
              rewrite Hget, Hdec. simpl. by rewrite !app_assoc.
           ++ intros p' Hin. apply elem_of_cons in Hin as [->|Hin]; [|auto].
              intros (d & e & Hd & He). rewrite Hget in Hd.
              injection Hd as <-. rewrite Hdec in He. done.
        -- right. exists p', data', err'. repeat split; [by right|done..].
    + destruct (IH (grants ++ default [] (extraGrants a !! p)))
        as [[Heq Hall]|(p' & data' & err' & Hin & Hget' & Hdec' & Heq)].
      * left. split.
        -- rewrite Heq. cbn [mbind list_bind]. unfold policyGrants at 2.
           rewrite Hget. by rewrite app_nil_r, !app_assoc.
        -- intros p' Hin. apply elem_of_cons in Hin as [->|Hin]; [|auto].
           intros (d & e & Hd & He). rewrite Hget in Hd. done.
      * right. exists p', data', err'. repeat split; [by right|done..].
Qed.

(** A fetch without an error returns the grants of its policies. *)
Lemma grantsByPolicies_ok (a : Authorizer) (policies : list string)
    (grants : list Grant) :
  grantsByPolicies a policies = (grants, None) →
  grants = policies ≫= policyGrants a.
Proof.
  unfold grantsByPolicies. intros Heq.
  destruct (grantsByPolicies_from_cases a policies [])
    as [[Hok _]|(p & data & err & _ & _ & _ & Herr)];
    simpl in *; congruence.
Qed.

(** A fetch fails exactly when one of the stored lists does not decode. *)
Lemma grantsByPolicies_error_iff (a : Authorizer) (policies : list string) :
  snd (grantsByPolicies a policies) ≠ None ↔
  ∃ p, p ∈ policies ∧ undecodable a p.
Proof.
  unfold grantsByPolicies.
  destruct (grantsByPolicies_from_cases a policies [])
    as [[Hok Hall]|(p & data & err & Hin & Hget & Hdec & Herr)].
  - rewrite Hok. simpl. split; [done|].
    intros (p & Hin & Hun). by apply Hall in Hun.
  - rewrite Herr. simpl. split; [|done].
    intros _. exists p. split; [done|]. by exists data, err.
Qed.

End Registry.

(** ** The decision of [Authorize] *)

(** What [Authorize] accepts: when the route has policies and the fetch of
    their grants returns the list [G], [Authorize] returns [nil] if and
    only if [authorized] accepts some grant of [G] for the context of the
    request, and it returns [ErrNotAuthorized] when it accepts none. *)
Lemma Authorize_nil_iff_accepted `{L : Libraries}
    (a : Authorizer) (req : Request) (policies : list string)
    (G : list Grant) :
  policyByRoute a !! TrimRight (RequestURI req) "/" = Some policies →
  policies ≠ [] →
  grantsByPolicies a policies = (G, None) →
  G = policies ≫= policyGrants a ∧
  (Authorize a req = None ↔ ∃ g, g ∈ G ∧ guard_matches (Ctx req) g) ∧
  (¬ (∃ g, g ∈ G ∧ guard_matches (Ctx req) g) →
   Authorize a req = Some ErrNotAuthorized).
Proof.
  intros Hroute Hne Hfetch. split; [by apply grantsByPolicies_ok|].
  unfold Authorize. rewrite Hroute. simpl.
  rewrite bool_decide_eq_false_2 by (destruct policies; done).
  rewrite Hfetch, <- authorized_iff.
  destruct (authorized (Ctx req) G); simpl; split; done.
Qed.

(** A guard that matches in the words of the specification is accepted by
    [authorized]. *)
Lemma spec_matches_accepted `{L : Libraries} (ctx : context_Context)
    (g : Grant) :
  spec_matches ctx g → guard_matches ctx g.
Proof.
  intros [Ht _ Hid|pattern cert Ht Hp Hin Hs|Ht Hl|Ht].
  - by apply matches_access_token.
  - apply (matches_x509 ctx g pattern cert); try done.
    by apply matchesX509_spec.
  - by apply matches_localhost.
  - by apply matches_any.
Qed.

(** For a request that presents a token, [authorized] accepts a guard only
    if it matches in the words of the specification. *)
Lemma accepted_spec_matches_with_token `{L : Libraries}
    (ctx : context_Context) (g : Grant) :
  Token ctx ≠ EmptyString →
  guard_matches ctx g → spec_matches ctx g.
Proof.
  intros Htok [Ht Hid|pattern cert Ht Hp Hin Hm|Ht Hl|Ht].
  - by apply spec_access_token.
  - apply (spec_x509 ctx g pattern cert); try done.
    by apply matchesX509_spec.
  - by apply spec_localhost.
  - by apply spec_any.
Qed.

(** Where the decision follows the specification: a grant that matches
    always authorizes, and for a request that presents a token [Authorize]
    returns [nil] exactly when some grant of the fetched list matches. *)
Lemma Authorize_nil_iff_spec_matches_with_token `{L : Libraries}
    (a : Authorizer) (req : Request) (policies : list string)
    (G : list Grant) :
  policyByRoute a !! TrimRight (RequestURI req) "/" = Some policies →
  policies ≠ [] →
  grantsByPolicies a policies = (G, None) →
  ((∃ g, g ∈ G ∧ spec_matches (Ctx req) g) → Authorize a req = None) ∧
  (Token (Ctx req) ≠ EmptyString →
   (Authorize a req = None ↔ ∃ g, g ∈ G ∧ spec_matches (Ctx req) g) ∧
   (¬ (∃ g, g ∈ G ∧ spec_matches (Ctx req) g) →
    Authorize a req = Some ErrNotAuthorized)).
Proof.
  intros Hroute Hne Hfetch.
  destruct (Authorize_nil_iff_accepted a req policies G Hroute Hne Hfetch)
    as (_ & Hiff & Hdeny).
  assert ((∃ g, g ∈ G ∧ spec_matches (Ctx req) g) →
          ∃ g, g ∈ G ∧ guard_matches (Ctx req) g) as Hsound.
  { intros (g & Hin & Hm). exists g. split; [done|].
    by apply spec_matches_accepted. }
  split; [intros Hex; apply Hiff; by apply Hsound|].
  intros Htok.
  assert ((∃ g, g ∈ G ∧ guard_matches (Ctx req) g) →
          ∃ g, g ∈ G ∧ spec_matches (Ctx req) g) as Hcomplete.
  { intros (g & Hin & Hm). exists g. split; [done|].
    by apply accepted_spec_matches_with_token. }
  split.
  - rewrite Hiff. split; [apply Hcomplete|apply Hsound].
  - intros Hno. apply Hdeny. intros Hex. apply Hno. by apply Hcomplete.
Qed.

(** C1: the store holds, for the one policy of the route, the list with one
    [access_token] grant of empty identifier, and the request presents no
    credential.  The route has its policy, the fetch returns that list, no
    grant of the list matches the context in the words of the
    specification, and yet [Authorize] returns [nil]. *)
Theorem C1_Authorize_nil_without_matching_grant :
  policyByRoute Defect.authorizer
    !! TrimRight (RequestURI Defect.request) "/"
    = Some ["client-readwrite"] ∧
  grantsByPolicies (L := Defect.libs) Defect.authorizer ["client-readwrite"]
    = ([Examples.emptyIDGrant], None) ∧
  ¬ (∃ g, g ∈ [Examples.emptyIDGrant]
          ∧ spec_matches (L := Defect.libs) (Ctx Defect.request) g) ∧
  Authorize (L := Defect.libs) Defect.authorizer Defect.request = None.
Proof.
  split; [vm_compute; reflexivity|]. split; [vm_compute; reflexivity|].
  split; [|vm_compute; reflexivity].
  intros (g & Hin & Hm). apply list_elem_of_singleton in Hin as ->.
  destruct Hm as [_ Htok _|pattern cert Ht _ _ _|Ht _|Ht];
    [by apply Htok|discriminate Ht..].
Qed.

(** C2: an [x509] guard whose data parses to the pattern [P] matches a
    context if and only if one of the presented certificate subjects
    satisfies [P]: common name and serial number empty or equal, and each
    multi-valued field of [P] empty or an in-order prefix of the field of
    the subject.  The pattern with organization [Acme] is satisfied by the
    organization [Acme; Eng], not by [Other] and not by no organization. *)
Theorem C2_x509_guard_matches_by_prefix `{L : Libraries}
    (g : Grant) (P : pkix.Name) (ctx : context_Context) :
  GuardType g = "x509" →
  name_Parse (GuardData g) = (P, None) →
  (guard_matches ctx g ↔
   ∃ cert, cert ∈ X509Certs ctx ∧ subject_satisfies P (Subject cert)) ∧
  (authorized ctx [g] = true ↔
   ∃ cert, cert ∈ X509Certs ctx ∧ subject_satisfies P (Subject cert)) ∧
  matchesX509 Examples.acmePattern Examples.acmeEng = true ∧
  matchesX509 Examples.acmePattern Examples.otherOrg = false ∧
  matchesX509 Examples.acmePattern pkix.zero = false.
Proof.
  intros Ht Hp.
  assert (guard_matches ctx g ↔
          ∃ cert, cert ∈ X509Certs ctx ∧ subject_satisfies P (Subject cert))
    as Hiff.
  { split.
    - intros [Ht' _|pattern cert _ Hp' Hin Hm|Ht' _|Ht']; try congruence.
      exists cert. split; [done|]. apply matchesX509_spec. congruence.
    - intros (cert & Hin & Hs). apply matchesX509_spec in Hs.
      by eapply matches_x509. }
  split; [done|]. split; [by rewrite authorized_single|].
  repeat split; reflexivity.
Qed.

(** C9: an [x509] guard does not match a context without certificates,
    whatever its pattern; an [x509] guard whose data parses to the pattern
    with every field empty matches every context that presents at least
    one certificate. *)
Theorem C9_x509_no_certificate_and_empty_pattern `{L : Libraries}
    (g : Grant) (ctx : context_Context) :
  GuardType g = "x509" →
  (X509Certs ctx = [] →
   ¬ guard_matches ctx g ∧ authorized ctx [g] = false) ∧
  (name_Parse (GuardData g) = (pkix.zero, None) →
   X509Certs ctx ≠ [] →
   guard_matches ctx g ∧ authorized ctx [g] = true).
Proof.
  intros Ht. split.
  - intros Hnone.
    assert (¬ guard_matches ctx g) as Hno.
    { intros [Ht' _|pattern cert _ _ Hin _|Ht' _|Ht']; try congruence.
      rewrite Hnone in Hin. by apply elem_of_nil in Hin. }
    split; [done|].
    destruct (authorized ctx [g]) eqn:Hg; [|done].
    by apply authorized_single in Hg.
  - intros Hp Hsome.
    assert (guard_matches ctx g) as Hyes.
    { destruct (X509Certs ctx) as [|cert certs] eqn:Hc; [done|].
      apply (matches_x509 ctx g pkix.zero cert); try done.
      rewrite Hc. left. }
    split; [done|]. by apply authorized_single.
Qed.

(** C10: a grant whose guard type is none of [access_token], [x509],
    [localhost] and [any] matches no context: alone it is refused, and
    anywhere in a list of grants the decision is that of the list without
    it. *)
Theorem C10_unknown_guard_type_is_passed_over `{L : Libraries}
    (g : Grant) (ctx : context_Context) :
  GuardType g ∉ knownGuardTypes →
  ¬ guard_matches ctx g ∧
  authorized ctx [g] = false ∧
  ∀ before after,
    authorized ctx (before ++ g :: after) = authorized ctx (before ++ after).
Proof.
  intros Hunknown.
  assert (¬ guard_matches ctx g) as Hno.
  { intros [Ht _|pattern cert Ht _ _ _|Ht _|Ht];
      apply Hunknown; rewrite Ht; unfold knownGuardTypes;
      repeat first [by left | right]. }
  split; [done|]. split.
  - destruct (authorized ctx [g]) eqn:Hg; [|done].
    by apply authorized_single in Hg.
  - intros before after. by apply authorized_skip.
Qed.

(** ** Routes without a policy *)

(** Trailing slashes do not change the route key. *)
Lemma TrimRight_slash (s : string) :
  TrimRight (s +:+ "/") "/" = TrimRight s "/".
Proof.
  induction s as [|c s IH]; [reflexivity|].
  change (String c s +:+ "/") with (String c (s +:+ "/")).
  cbn [TrimRight]. by rewrite IH.
Qed.

(** C4: when the normalized route key has no entry, or an empty list, in
    the map of policies, [Authorize] returns the missing-policy error,
    which is not [ErrNotAuthorized], whatever the store, the grants kept in
    the process and the context of the request are. *)
Theorem C4_route_without_policy_is_missing_policy `{L : Libraries}
    (rdb : gmap string string) (prefix : string)
    (policyMap : gmap string (list string))
    (extra : gmap string (list Grant)) (uri : string)
    (ctx : context_Context) :
  policyMap !! TrimRight uri "/" = None ∨
  policyMap !! TrimRight uri "/" = Some [] →
  Authorize (mkAuthorizer rdb prefix policyMap extra) (mkRequest uri ctx)
    = Some errMissingPolicy ∧
  errMissingPolicy ≠ ErrNotAuthorized ∧
  Error errMissingPolicy ≠ Error ErrNotAuthorized.
Proof.
  intros Hroute. split; [|split; discriminate].
  unfold Authorize. simpl. by destruct Hroute as [-> | ->].
Qed.

(** ** Registration in the process *)

Section Registration.

Context {L : Libraries}.

(** Whether a fetch fails is decided by the store alone. *)
Lemma grantsByPolicies_from_error_store (a a' : Authorizer)
    (policies : list string) (grants grants' : list Grant) :
  raftDB a' = raftDB a →
  raftPrefix a' = raftPrefix a →
  snd (grantsByPolicies_from a' grants' policies)
  = snd (grantsByPolicies_from a grants policies).
Proof.
  intros Hdb Hprefix. revert grants grants'.
  induction policies as [|p policies IH]; intros grants grants'; [done|].
  cbn [grantsByPolicies_from]. rewrite Hdb, Hprefix.
  destruct (raftDB a !! (raftPrefix a +:+ p)) as [data|]; [|apply IH].
  destruct (proto_Unmarshal data (mkGrantList [])) as [grantList [err|]];
    [done|apply IH].
Qed.

(** A fetch reads the grants kept in the process only at its policies. *)
Lemma grantsByPolicies_from_ext (a a' : Authorizer) (policies : list string)
    (grants : list Grant) :
  raftDB a' = raftDB a →
  raftPrefix a' = raftPrefix a →
  (∀ p, p ∈ policies → extraGrants a' !! p = extraGrants a !! p) →
  grantsByPolicies_from a' grants policies
  = grantsByPolicies_from a grants policies.
Proof.
  intros Hdb Hprefix. revert grants.
  induction policies as [|p policies IH]; intros grants Hextra; [done|].
  cbn [grantsByPolicies_from].
  rewrite Hdb, Hprefix, (Hextra p) by left.
  assert (∀ q, q ∈ policies → extraGrants a' !! q = extraGrants a !! q)
    as Hrest by (intros q Hq; apply Hextra; by right).
  destruct (raftDB a !! (raftPrefix a +:+ p)) as [data|]; [|by apply IH].
  destruct (proto_Unmarshal data (mkGrantList [])) as [grantList [err|]];
    [done|by apply IH].
Qed.

End Registration.

(** C6: when the subject does not format, [GrantInternal] does not return:
    it panics with the error of the formatter, and the authorizer, with the
    grants it keeps in the process, is as it was before the call. *)
Theorem C6_GrantInternal_invalid_subject_panics `{L : Libraries}
    (a : Authorizer) (subj : pkix.Name) (now data : string) (err : error) :
  name_Format subj = (data, Some err) →
  GrantInternal a subj now = (a, Panicked err) ∧
  snd (GrantInternal a subj now) ≠ Returned ∧
  extraGrants (fst (GrantInternal a subj now)) = extraGrants a.
Proof.
  intros Hfmt. unfold GrantInternal. rewrite Hfmt. by repeat split.
Qed.

(** C8: when the subject formats to [data], [GrantInternal] returns, and
    afterwards every fetch that asks for [internal] and meets no stored
    list that does not decode succeeds and returns the grant of policy
    [internal] with guard type [x509] and that data; with nothing stored
    for [internal], the fetch of [internal] returns the grants kept for it
    before the call followed by this grant.  The store, its prefix and the
    policy map are unchanged, a fetch fails after the call exactly when it
    failed before, and the grants of every other policy, and every fetch
    that does not ask for [internal], are as before. *)
Theorem C8_GrantInternal_is_visible_and_local `{L : Libraries}
    (a : Authorizer) (subj : pkix.Name) (now data : string) :
  name_Format subj = (data, None) →
  let g := mkGrant "x509" data "internal" now in
  let a' := fst (GrantInternal a subj now) in
  snd (GrantInternal a subj now) = Returned ∧
  raftDB a' = raftDB a ∧
  raftPrefix a' = raftPrefix a ∧
  policyByRoute a' = policyByRoute a ∧
  g ∈ policyGrants a' "internal" ∧
  (∀ policies G,
     "internal" ∈ policies →
     grantsByPolicies a' policies = (G, None) → g ∈ G) ∧
  (∀ policies,
     snd (grantsByPolicies a' policies) = snd (grantsByPolicies a policies)) ∧
  (∀ p, p ≠ "internal" →
     extraGrants a' !! p = extraGrants a !! p ∧
     policyGrants a' p = policyGrants a p) ∧
  (∀ policies,
     "internal" ∉ policies →
     grantsByPolicies a' policies = grantsByPolicies a policies) ∧
  (∀ policies,
     "internal" ∈ policies →
     decodable a policies →
     ∃ G, grantsByPolicies a' policies = (G, None) ∧ g ∈ G) ∧
  (raftDB a !! (raftPrefix a +:+ "internal") = None →
   grantsByPolicies a' ["internal"]
   = (default [] (extraGrants a !! "internal") ++ [g], None)).
Proof.
  intros Hfmt g a'. subst a'. unfold GrantInternal. rewrite Hfmt. simpl.
  set (a' := mkAuthorizer _ _ _ _).
  assert (g ∈ policyGrants a' "internal") as Hin.
  { unfold policyGrants. simpl. rewrite lookup_insert_eq. simpl.
    apply elem_of_app. left. apply elem_of_app. right. left. }
  assert (∀ p, p ≠ "internal" → extraGrants a' !! p = extraGrants a !! p)
    as Hother.
  { intros p Hp. simpl. by rewrite lookup_insert_ne. }
  assert (∀ policies G,
            "internal" ∈ policies →
            grantsByPolicies a' policies = (G, None) → g ∈ G) as Hfetched.
  { intros policies G Hpol Hfetch.
    rewrite (grantsByPolicies_ok a' policies G Hfetch).
    apply list_elem_of_bind. by exists "internal". }
  repeat split; try done.
  - intros policies. by apply grantsByPolicies_from_error_store.
  - by apply Hother.
  - unfold policyGrants. rewrite Hother by done. done.
  - intros policies Hpol. apply grantsByPolicies_from_ext; try done.
    intros p Hp. apply Hother. intros ->. done.
  - intros policies Hpol Hdec. unfold grantsByPolicies.
    destruct (grantsByPolicies_from_cases a' policies [])
      as [[Hok _]|(p & data' & err & Hp & Hget & Hun & _)].
    + exists ([] ++ (policies ≫= policyGrants a')). split; [done|].
      by apply (Hfetched policies _ Hpol).
    + destruct (Hdec p Hp). by exists data', err.
  - intros Hnone. unfold grantsByPolicies. simpl.
    by rewrite Hnone, lookup_insert_eq.
Qed.

(** ** Stored lists that do not decode *)

(** C7: a fetch returns an error if and only if, for one of its policies,
    the store holds a list that does not decode, and the error is then the
    wrapped error of the decoder; a policy with nothing in the store, or
    with a stored list that decodes to no grant, is no error and adds no
    grant to those kept in the process. *)
Theorem C7_grantsByPolicies_fails_iff_undecodable `{L : Libraries}
    (a : Authorizer) (policies : list string) :
  (snd (grantsByPolicies a policies) ≠ None ↔
   ∃ p, p ∈ policies ∧ undecodable a p) ∧
  (∀ e, snd (grantsByPolicies a policies) = Some e →
     fst (grantsByPolicies a policies) = [] ∧
     ∃ p data err,
       p ∈ policies ∧
       raftDB a !! (raftPrefix a +:+ p) = Some data ∧
       snd (proto_Unmarshal data (mkGrantList [])) = Some err ∧
       e = Wrap err) ∧
  (∀ p,
     raftDB a !! (raftPrefix a +:+ p) = None →
     grantsByPolicies a [p] = (default [] (extraGrants a !! p), None)) ∧
  (∀ p data grantList,
     raftDB a !! (raftPrefix a +:+ p) = Some data →
     proto_Unmarshal data (mkGrantList []) = (grantList, None) →
     Grants grantList = [] →
     grantsByPolicies a [p] = (default [] (extraGrants a !! p), None)).
Proof.
  split; [apply grantsByPolicies_error_iff|]. split; [|split].
  - intros e He. unfold grantsByPolicies in *.
    destruct (grantsByPolicies_from_cases a policies [])
      as [[Hok _]|(p & data & err & Hin & Hget & Hdec & Herr)].
    + rewrite Hok in He. done.
    + rewrite Herr in *. simpl in *. split; [done|].
      exists p, data, err. repeat split; try done. congruence.
  - intros p Hget. unfold grantsByPolicies. simpl. by rewrite Hget.
  - intros p data grantList Hget Hdec Hempty.
    unfold grantsByPolicies. simpl.
    by rewrite Hget, Hdec, Hempty, app_nil_r.
Qed.

(** ** Access-token guards *)

(** An [access_token] guard matches exactly when the identifier decoded
    from its data is the token of the context. *)
Lemma access_token_guard_iff `{L : Libraries} (g : Grant)
    (ctx : context_Context) :
  GuardType g = "access_token" →
  guard_matches ctx g ↔ accessTokenGuardData g = Token ctx.
Proof.
  intros Ht. split.
  - intros [_ Hid|pattern cert Ht' _ _ _|Ht' _|Ht']; congruence.
  - intros Hid. by apply matches_access_token.
Qed.

(** Data that [json.Unmarshal] rejects without writing to its target
    decode to the empty identifier. *)
Lemma accessTokenGuardData_rejected `{L : Libraries} (g : Grant) (err : error) :
  json_Unmarshal (GuardData g) (mkTokenData EmptyString)
    = (mkTokenData EmptyString, Some err) →
  accessTokenGuardData g = EmptyString.
Proof. intros Hdec. unfold accessTokenGuardData. by rewrite Hdec. Qed.

(** With a token in the context, an [access_token] grant whose data were
    rejected is passed over. *)
Lemma rejected_access_token_passed_over `{L : Libraries} (g : Grant)
    (err : error) (ctx : context_Context) (before after : list Grant) :
  GuardType g = "access_token" →
  json_Unmarshal (GuardData g) (mkTokenData EmptyString)
    = (mkTokenData EmptyString, Some err) →
  Token ctx ≠ EmptyString →
  authorized ctx (before ++ g :: after) = authorized ctx (before ++ after).
Proof.
  intros Ht Hdec Htok. apply authorized_skip.
  rewrite (access_token_guard_iff g ctx Ht).
  rewrite (accessTokenGuardData_rejected g err Hdec). congruence.
Qed.

(** An [x509] grant whose data do not parse is passed over. *)
Lemma unparsable_x509_passed_over `{L : Libraries} (g : Grant)
    (pattern : pkix.Name) (err : error) (ctx : context_Context)
    (before after : list Grant) :
  GuardType g = "x509" →
  name_Parse (GuardData g) = (pattern, Some err) →
  authorized ctx (before ++ g :: after) = authorized ctx (before ++ after).
Proof.
  intros Ht Hp. apply authorized_skip.
  intros [Ht' _|pattern' cert _ Hp' _ _|Ht' _|Ht']; congruence.
Qed.

(** Whatever the libraries are, a request without a token is authorized by
    an [access_token] grant whose identifier decodes to the empty string. *)
Lemma absent_token_accepted_by_empty_id `{L : Libraries} (g : Grant)
    (ctx : context_Context) (before after : list Grant) :
  GuardType g = "access_token" →
  accessTokenGuardData g = EmptyString →
  Token ctx = EmptyString →
  authorized ctx (before ++ g :: after) = true.
Proof.
  intros Ht Hid Htok. apply authorized_iff. exists g. split.
  - apply elem_of_app. right. left.
  - apply matches_access_token; congruence.
Qed.

(** C3: an [access_token] grant with the empty identifier, evaluated for a
    request that presents no token: the identifier of the grant and the
    token of the context are both the empty string, the comparison of
    [authorized] holds and the request is authorized. *)
Theorem C3_empty_token_matches_empty_id :
  accessTokenGuardData (L := Examples.libs) Examples.emptyIDGrant
    = Token Examples.anonymous ∧
  guard_matches (L := Examples.libs) Examples.anonymous Examples.emptyIDGrant ∧
  authorized (L := Examples.libs) Examples.anonymous [Examples.emptyIDGrant]
    = true.
Proof.
  split; [reflexivity|]. split; [|reflexivity].
  by apply matches_access_token.
Qed.

(** C5: an [access_token] grant whose data are not JSON, evaluated for a
    request that presents no token: [json.Unmarshal] leaves the identifier
    empty, equal to the token of the context, so the grant authorizes the
    request on its own.  With a token in the context the same grant is
    passed over and a later grant still decides. *)
Theorem C5_malformed_access_token_matches_absent_token :
  accessTokenGuardData (L := Examples.libs) Examples.malformedGrant
    = EmptyString ∧
  authorized (L := Examples.libs) Examples.anonymous [Examples.malformedGrant]
    = true ∧
  authorized (L := Examples.libs) Examples.withToken [Examples.malformedGrant]
    = false ∧
  authorized (L := Examples.libs) Examples.withToken
    [Examples.malformedGrant; Examples.tokenGrant] = true.
Proof. repeat split; reflexivity. Qed.

(** ** The theorems at concrete inputs *)

Lemma C2_witness :
  GuardType Examples.acmeGrant = "x509" ∧
  name_Parse (Libraries := Examples.libs) (GuardData Examples.acmeGrant)
    = (Examples.acmePattern, None) ∧
  guard_matches (L := Examples.libs) Examples.withAcmeEng Examples.acmeGrant.
Proof.
  split; [reflexivity|]. split; [reflexivity|].
  apply (C2_x509_guard_matches_by_prefix (L := Examples.libs)
           Examples.acmeGrant Examples.acmePattern Examples.withAcmeEng);
    [reflexivity..|].
  exists (mkCertificate Examples.acmeEng). split; [left|].
  apply matchesX509_spec. reflexivity.
Defined.

(** The route [/status] has no policy: the token that the stored grant of
    [client-readwrite] would accept does not change the answer. *)
Lemma C4_witness :
  (Examples.routes !! TrimRight "/status" "/" = None ∨
   Examples.routes !! TrimRight "/status" "/" = Some []) ∧
  Authorize (L := Examples.libs)
    (mkAuthorizer Examples.store "grants/" Examples.routes
       (extraGrants Examples.authorizer))
    (mkRequest "/status" Examples.withToken) = Some errMissingPolicy.
Proof.
  split; [left; vm_compute; reflexivity|].
  apply (C4_route_without_policy_is_missing_policy (L := Examples.libs)).
  left; vm_compute; reflexivity.
Defined.

Lemma C6_witness :
  name_Format (Libraries := Examples.libs) Examples.acmeEng
    = (EmptyString, Some (New "invalid name")) ∧
  GrantInternal (L := Examples.libs) Examples.authorizer Examples.acmeEng
    "2017-03-01T00:00:00Z"
    = (Examples.authorizer, Panicked (New "invalid name")).
Proof.
  split; [reflexivity|].
  apply (C6_GrantInternal_invalid_subject_panics (L := Examples.libs)
           Examples.authorizer Examples.acmeEng "2017-03-01T00:00:00Z"
           EmptyString (New "invalid name")).
  reflexivity.
Defined.

(** The stored list of [monitoring] does not decode; nothing is stored for
    [public]. *)
Lemma C7_witness :
  snd (grantsByPolicies (L := Examples.libs) Examples.authorizer
         ["public"; "monitoring"]) ≠ None ∧
  grantsByPolicies (L := Examples.libs) Examples.authorizer ["public"]
    = (builtinGrants, None).
Proof.
  split.
  - apply (C7_grantsByPolicies_fails_iff_undecodable (L := Examples.libs)
             Examples.authorizer ["public"; "monitoring"]).
    exists "monitoring". split; [right; left|].
    exists "garbage", (New "proto: cannot parse").
    split; vm_compute; reflexivity.
  - apply (C7_grantsByPolicies_fails_iff_undecodable (L := Examples.libs)
             Examples.authorizer ["public"]).
    vm_compute; reflexivity.
Defined.

Lemma C8_witness :
  name_Format (Libraries := Examples.libs) Examples.peerName
    = ("CN=peer", None) ∧
  raftDB Examples.authorizer
    !! (raftPrefix Examples.authorizer +:+ "internal") = None ∧
  grantsByPolicies (L := Examples.libs)
    (fst (GrantInternal (L := Examples.libs) Examples.authorizer
            Examples.peerName "2017-03-01T00:00:00Z"))
    ["internal"]
  = ([mkGrant "x509" "CN=peer" "internal" "2017-03-01T00:00:00Z"], None) ∧
  raftDB (fst (GrantInternal (L := Examples.libs) Examples.authorizer
                 Examples.peerName "2017-03-01T00:00:00Z"))
    = Examples.store.
Proof.
  assert (raftDB Examples.authorizer
            !! (raftPrefix Examples.authorizer +:+ "internal") = None)
    as Hnone by (vm_compute; reflexivity).
  split; [reflexivity|]. split; [exact Hnone|].
  pose proof (C8_GrantInternal_is_visible_and_local (L := Examples.libs)
                Examples.authorizer Examples.peerName
                "2017-03-01T00:00:00Z" "CN=peer" eq_refl) as H.
  simpl in H.
  destruct H as (_ & Hdb & _ & _ & _ & _ & _ & _ & _ & _ & Hfetch).
  split; [exact (Hfetch Hnone)|exact Hdb].
Defined.

Lemma C9_witness :
  GuardType Examples.anyNameGrant = "x509" ∧
  authorized (L := Examples.libs) Examples.anonymous [Examples.anyNameGrant]
    = false ∧
  authorized (L := Examples.libs) Examples.withAcmeEng [Examples.anyNameGrant]
    = true.
Proof.
  split; [reflexivity|]. split.
  - apply (C9_x509_no_certificate_and_empty_pattern (L := Examples.libs)
             Examples.anyNameGrant Examples.anonymous); reflexivity.
  - apply (C9_x509_no_certificate_and_empty_pattern (L := Examples.libs)
             Examples.anyNameGrant Examples.withAcmeEng);
      [reflexivity..|discriminate].
Defined.

Lemma C10_witness :
  GuardType Examples.unknownGrant ∉ knownGuardTypes ∧
  authorized (L := Examples.libs) Examples.withToken
    [Examples.unknownGrant] = false.
Proof.
  assert (GuardType Examples.unknownGrant ∉ knownGuardTypes) as Hunknown.
  { apply (bool_decide_unpack _). vm_compute. exact I. }
  split; [exact Hunknown|].
  apply (C10_unknown_guard_type_is_passed_over (L := Examples.libs)
           Examples.unknownGrant Examples.withToken Hunknown).
Defined.

(** ** More on the matcher *)

(** X1: [matchesStrings] never indexes the subject out of range: for all
    inputs its body ends without a panic, with the value the function
    returns. *)
Theorem X1_matchesStrings_index_in_range (pat x : list string) :
  matchesStrings_body pat x = Some (matchesStrings pat x).
Proof.
  unfold matchesStrings.
  destruct (matchesStrings_body_total pat x) as [b ->]. reflexivity.
Qed.

Lemma matchesStrings_refl (x : list string) : matchesStrings x x = true.
Proof.
  apply matchesStrings_prefix. split; [lia|]. by rewrite take_ge by lia.
Qed.

Lemma matchesStrings_trans (p q r : list string) :
  matchesStrings p q = true → matchesStrings q r = true →
  matchesStrings p r = true.
Proof.
  rewrite !matchesStrings_prefix. intros [Hpq Hp] [Hqr Hq]. split; [lia|].
  transitivity (take (length p) (take (length q) r)).
  - rewrite take_take. f_equal. lia.
  - by rewrite Hq.
Qed.

Lemma matchesStrings_antisym (p q : list string) :
  matchesStrings p q = true → matchesStrings q p = true → p = q.
Proof.
  rewrite !matchesStrings_prefix. intros [Hpq Hp] [Hqp Hq].
  rewrite <- Hp. apply take_ge. lia.
Qed.

Lemma matchesString_trans (p q r : string) :
  matchesString p q = true → matchesString q r = true →
  matchesString p r = true.
Proof.
  rewrite !matchesString_spec. unfold field_satisfied.
  intros [->| ->] [->| ->]; auto.
Qed.

Lemma matchesString_antisym (p q : string) :
  matchesString p q = true → matchesString q p = true → p = q.
Proof.
  rewrite !matchesString_spec. unfold field_satisfied.
  intros [->| ->] [->| Heq]; auto.
Qed.

Lemma matchesX509_fields (pat x : pkix.Name) :
  matchesX509 pat x = true ↔
  matchesString (pkix.CommonName pat) (pkix.CommonName x) = true ∧
  matchesStrings (pkix.Country pat) (pkix.Country x) = true ∧
  matchesStrings (pkix.Organization pat) (pkix.Organization x) = true ∧
  matchesStrings (pkix.OrganizationalUnit pat) (pkix.OrganizationalUnit x)
    = true ∧
  matchesStrings (pkix.Locality pat) (pkix.Locality x) = true ∧
  matchesStrings (pkix.Province pat) (pkix.Province x) = true ∧
  matchesStrings (pkix.StreetAddress pat) (pkix.StreetAddress x) = true ∧
  matchesStrings (pkix.PostalCode pat) (pkix.PostalCode x) = true ∧
  matchesString (pkix.SerialNumber pat) (pkix.SerialNumber x) = true.
Proof. unfold matchesX509. rewrite !andb_true_iff. tauto. Qed.

(** X2: a pattern that accepts another pattern, read as a subject, accepts
    every subject that this other pattern accepts: taking values away from
    the end of a pattern, or emptying one of its fields, never loses a
    match. *)
Theorem X2_matchesX509_weaker_pattern_accepts_more (p q x : pkix.Name) :
  matchesX509 p q = true →
  matchesX509 q x = true →
  matchesX509 p x = true.
Proof.
  rewrite !matchesX509_fields.
  intros (H1 & H2 & H3 & H4 & H5 & H6 & H7 & H8 & H9)
         (K1 & K2 & K3 & K4 & K5 & K6 & K7 & K8 & K9).
  repeat split;
    eauto using matchesString_trans, matchesStrings_trans.
Qed.

(** X3: two names accept each other exactly when they are the same name in
    the nine fields the matcher reads; in particular every name accepts
    itself. *)
Theorem X3_matchesX509_mutual_iff_equal (p q : pkix.Name) :
  matchesX509 p q = true ∧ matchesX509 q p = true ↔ p = q.
Proof.
  split.
  - rewrite !matchesX509_fields.
    intros [(H1 & H2 & H3 & H4 & H5 & H6 & H7 & H8 & H9)
            (K1 & K2 & K3 & K4 & K5 & K6 & K7 & K8 & K9)].
    destruct p, q; simpl in *. f_equal;
      eauto using matchesString_antisym, matchesStrings_antisym.
  - intros <-.
    assert (matchesX509 p p = true) as Hrefl; [|done].
    apply matchesX509_fields.
    repeat split; try apply matchesStrings_refl;
      apply matchesString_spec; by right.
Qed.

(** Within bounds the loop of [equalX509Name] compares the two slices
    index by index. *)
Lemma equalX509Name_range_spec (a b : list string) (n i : nat) :
  i + n ≤ length a → i + n ≤ length b →
  equalX509Name_range (seq i n) a b
  = Some (bool_decide (take n (drop i a) = take n (drop i b))).
Proof.
  revert i. induction n as [|n IH]; intros i Ha Hb; simpl.
  - done.
  - destruct (lookup_lt_is_Some_2 a i) as [ai Hai]; [lia|].
    destruct (lookup_lt_is_Some_2 b i) as [bi Hbi]; [lia|].
    rewrite Hai, Hbi, (drop_S a ai i Hai), (drop_S b bi i Hbi). simpl.
    case_bool_decide as Hne.
    + f_equal. symmetry. apply bool_decide_eq_false_2. congruence.
    + subst bi. rewrite IH by lia. f_equal.
      apply bool_decide_ext. split; intros H; congruence.
Qed.

(** X4: [equalX509Name] never indexes out of range, and it holds exactly
    when the two names have the same common name and the same
    organizational units in the same order; the seven other fields are not
    compared. *)
Theorem X4_equalX509Name_compares_CN_and_OU (a b : pkix.Name) :
  equalX509Name_body a b = Some (equalX509Name a b) ∧
  (equalX509Name a b = true ↔
   pkix.CommonName a = pkix.CommonName b ∧
   pkix.OrganizationalUnit a = pkix.OrganizationalUnit b).
Proof.
  unfold equalX509Name, equalX509Name_body.
  case_bool_decide as Hcn; simpl.
  { split; [done|]. split; [done|]. intros [? _]. done. }
  case_bool_decide as Hlen; simpl.
  { split; [done|]. split; [done|]. intros [_ Hou]. by rewrite Hou in Hlen. }
  rewrite (equalX509Name_range_spec (pkix.OrganizationalUnit a)
             (pkix.OrganizationalUnit b)
             (length (pkix.OrganizationalUnit a)) 0); [|lia|lia].
  simpl. split; [done|]. rewrite !drop_0, bool_decide_eq_true.
  rewrite (take_ge (pkix.OrganizationalUnit a)) by lia.
  rewrite (take_ge (pkix.OrganizationalUnit b)) by lia. tauto.
Qed.

(** ** More on the loop over the grants *)

(** X5: the decision depends on which grants are in the list, not on their
    order or number: a context authorized by a list is authorized by every
    list that holds the same grants and possibly more. *)
Theorem X5_authorized_monotone_in_grants `{L : Libraries}
    (ctx : context_Context) (grants grants' : list Grant) :
  grants ⊆ grants' →
  authorized ctx grants = true →
  authorized ctx grants' = true.
Proof.
  intros Hsub. rewrite !authorized_iff.
  intros (g & Hin & Hm). exists g. split; [by apply Hsub|done].
Qed.

(** A guard that matches a context matches every context with the same
    token that presents at least the same certificates and is local
    whenever the first one is. *)
Lemma guard_matches_more_credentials `{L : Libraries}
    (ctx ctx' : context_Context) (g : Grant) :
  Token ctx' = Token ctx →
  X509Certs ctx ⊆ X509Certs ctx' →
  (Localhost ctx = true → Localhost ctx' = true) →
  guard_matches ctx g → guard_matches ctx' g.
Proof.
  intros Htok Hcerts Hlocal
    [Ht Hid|pattern cert Ht Hp Hin Hm|Ht Hl|Ht].
  - apply matches_access_token; congruence.
  - apply (matches_x509 ctx' g pattern cert); auto.
  - apply matches_localhost; auto.
  - by apply matches_any.
Qed.

(** X6: presenting more certificates, or coming from the local host, never
    loses an authorization: with the token unchanged, a list of grants that
    authorizes a context authorizes every context with at least the same
    certificates that is local whenever the first one is. *)
Theorem X6_authorized_monotone_in_credentials `{L : Libraries}
    (ctx ctx' : context_Context) (grants : list Grant) :
  Token ctx' = Token ctx →
  X509Certs ctx ⊆ X509Certs ctx' →
  (Localhost ctx = true → Localhost ctx' = true) →
  authorized ctx grants = true →
  authorized ctx' grants = true.
Proof.
  intros Htok Hcerts Hlocal. rewrite !authorized_iff.
  intros (g & Hin & Hm). exists g. split; [done|].
  by apply (guard_matches_more_credentials ctx ctx').
Qed.

(** X7: a [localhost] grant decides by the local-host flag of the context
    alone: anywhere in a list, the decision is that flag or else the
    decision of the list without the grant, so a remote caller gains
    nothing from it whatever else it presents. *)
Theorem X7_localhost_grant_decides_by_flag `{L : Libraries}
    (g : Grant) (ctx : context_Context) (before after : list Grant) :
  GuardType g = "localhost" →
  authorized ctx (before ++ g :: after)
  = Localhost ctx || authorized ctx (before ++ after).
Proof.
  intros Ht. rewrite !authorized_app, (authorized_cons ctx g after).
  assert (authorized ctx [g] = Localhost ctx) as ->.
  { simpl. rewrite Ht. simpl. by destruct (Localhost ctx). }
  destruct (authorized ctx before), (Localhost ctx); reflexivity.
Qed.

(** X8: a list of grants that holds an [any] grant authorizes every context,
    also one without token and certificate from a remote address, whatever
    the other grants of the list are. *)
Theorem X8_any_grant_authorizes_everyone `{L : Libraries}
    (g : Grant) (ctx : context_Context) (grants : list Grant) :
  GuardType g = "any" →
  g ∈ grants →
  authorized ctx grants = true.
Proof.
  intros Ht Hin. apply authorized_iff. exists g. split; [done|].
  by apply matches_any.
Qed.

(** ** More on [Authorize] *)

Section AuthorizeOutcomes.

Context {L : Libraries}.

(** A fetch over decodable lists returns the grants of its policies. *)
Lemma grantsByPolicies_decodable (a : Authorizer) (policies : list string) :
  decodable a policies →
  grantsByPolicies a policies = (policies ≫= policyGrants a, None).
Proof.
  intros Hdec. unfold grantsByPolicies.
  destruct (grantsByPolicies_from_cases a policies [])
    as [[Hok _]|(p & data & err & Hin & Hget & Hun & _)]; [done|].
  destruct (Hdec p Hin). by exists data, err.
Qed.

(** The four ways [Authorize] ends, each with the condition under which it
    is taken. *)
Lemma Authorize_cases (a : Authorizer) (req : Request) :
  let policies :=
    default [] (policyByRoute a !! TrimRight (RequestURI req) "/") in
  (policies = [] ∧ Authorize a req = Some errMissingPolicy)
  ∨ (policies ≠ [] ∧
     ∃ p data err,
       p ∈ policies ∧
       raftDB a !! (raftPrefix a +:+ p) = Some data ∧
       snd (proto_Unmarshal data (mkGrantList [])) = Some err ∧
       Authorize a req = Some (Wrap (Wrap err)))
  ∨ (policies ≠ [] ∧ decodable a policies ∧
     authorized (Ctx req) (policies ≫= policyGrants a) = false ∧
     Authorize a req = Some ErrNotAuthorized)
  ∨ (policies ≠ [] ∧ decodable a policies ∧
     authorized (Ctx req) (policies ≫= policyGrants a) = true ∧
     Authorize a req = None).
Proof.
  intros policies. unfold Authorize. fold policies.
  destruct policies as [|p0 policies'] eqn:Hpol; [by left|].
  right. rewrite bool_decide_eq_false_2 by done.
  unfold grantsByPolicies.
  destruct (grantsByPolicies_from_cases a (p0 :: policies') [])
    as [[Hok Hall]|(p & data & err & Hin & Hget & Hun & Herr)].
  - right. rewrite Hok, app_nil_l.
    destruct (authorized (Ctx req) ((p0 :: policies') ≫= policyGrants a))
      eqn:Hauth; [right|left]; cbn [negb];
      (split; [done|]; split; [exact Hall|]; split; reflexivity).
  - left. rewrite Herr. split; [done|]. by exists p, data, err.
Qed.

End AuthorizeOutcomes.

(** X9: [Authorize] ends in exactly one of four ways: the missing-policy
    error when the route has no policy; otherwise the twice wrapped error
    of the decoder when the stored list of one of the policies does not
    decode; otherwise [ErrNotAuthorized] when no grant of the policies
    matches; otherwise [nil].  The three errors are different values. *)
Theorem X9_Authorize_four_outcomes `{L : Libraries}
    (a : Authorizer) (req : Request) :
  let policies :=
    default [] (policyByRoute a !! TrimRight (RequestURI req) "/") in
  ((policies = [] ∧ Authorize a req = Some errMissingPolicy)
   ∨ (policies ≠ [] ∧
      ∃ p data err,
        p ∈ policies ∧
        raftDB a !! (raftPrefix a +:+ p) = Some data ∧
        snd (proto_Unmarshal data (mkGrantList [])) = Some err ∧
        Authorize a req = Some (Wrap (Wrap err)))
   ∨ (policies ≠ [] ∧ decodable a policies ∧
      authorized (Ctx req) (policies ≫= policyGrants a) = false ∧
      Authorize a req = Some ErrNotAuthorized)
   ∨ (policies ≠ [] ∧ decodable a policies ∧
      authorized (Ctx req) (policies ≫= policyGrants a) = true ∧
      Authorize a req = None))
  ∧ errMissingPolicy ≠ ErrNotAuthorized
  ∧ ∀ err, Wrap (Wrap err) ≠ errMissingPolicy ∧
           Wrap (Wrap err) ≠ ErrNotAuthorized.
Proof.
  intros policies. split; [apply Authorize_cases|].
  split; [discriminate|]. intros err. split; discriminate.
Qed.

(** X10: a stored list that does not decode, for any policy of the route,
    makes [Authorize] fail with a wrapped decoder error for every context:
    the request is not authorized even when a grant kept in the process,
    such as the builtin [any] grant, would match. *)
Theorem X10_undecodable_list_denies_every_request `{L : Libraries}
    (a : Authorizer) (req : Request) (policies : list string) (p : string) :
  policyByRoute a !! TrimRight (RequestURI req) "/" = Some policies →
  p ∈ policies →
  undecodable a p →
  ∃ err, Authorize a req = Some (Wrap (Wrap err)).
Proof.
  intros Hroute Hin Hun.
  pose proof (Authorize_cases a req) as Hcases. simpl in Hcases.
  rewrite Hroute in Hcases. simpl in Hcases.
  destruct Hcases
    as [[-> _]|[(_ & q & data & err & _ & _ & _ & Heq)
               |[(_ & Hdec & _)|(_ & Hdec & _)]]].
  - by apply elem_of_nil in Hin.
  - by exists err.
  - destruct (Hdec p Hin Hun).
  - destruct (Hdec p Hin Hun).
Qed.

(** ** Route keys and trailing slashes *)

Lemma TrimRight_slashes_empty (t : string) :
  only_slashes t → TrimRight t "/" = EmptyString.
Proof.
  unfold only_slashes. induction t as [|c t IH]; [done|].
  simpl. intros Hall. apply Forall_cons in Hall as [-> Hall].
  by rewrite (IH Hall).
Qed.

Lemma TrimRight_app_slashes (s t : string) :
  only_slashes t → TrimRight (s +:+ t) "/" = TrimRight s "/".
Proof.
  intros Ht. induction s as [|c s IH].
  - simpl. by apply TrimRight_slashes_empty.
  - change (String c s +:+ t) with (String c (s +:+ t)).
    cbn [TrimRight]. by rewrite IH.
Qed.

(** The key that [Authorize] looks up never ends in a slash. *)
Lemma TrimRight_no_trailing_slash (s t : string) :
  TrimRight s "/" ≠ t +:+ "/".
Proof.
  revert t. induction s as [|c s IH]; intros t.
  - simpl. by destruct t.
  - cbn [TrimRight]. destruct (TrimRight s "/") as [|c' r] eqn:Hr.
    + case_bool_decide as Hc.
      * by destruct t.
      * destruct t as [|c0 t]; simpl.
        -- intros [= ->]. apply Hc. left.
        -- intros [= _ Ht]. by destruct t.
    + destruct t as [|c0 t]; simpl.
      * intros [= _ ?].
      * intros [= _ Ht]. by apply (IH t).
Qed.

(** X11: trailing slashes of the request URI do not count: [Authorize]
    answers a URI followed by any number of slashes as it answers the URI
    itself. *)
Theorem X11_Authorize_ignores_trailing_slashes `{L : Libraries}
    (a : Authorizer) (uri t : string) (ctx : context_Context) :
  only_slashes t →
  Authorize a (mkRequest (uri +:+ t) ctx) = Authorize a (mkRequest uri ctx).
Proof.
  intros Ht. unfold Authorize. simpl.
  by rewrite (TrimRight_app_slashes uri t Ht).
Qed.

(** X12: an entry of the policy map under a key that ends in a slash is
    never read, since the key looked up has its trailing slashes removed:
    adding or replacing such an entry changes the answer to no request. *)
Theorem X12_route_key_with_trailing_slash_is_dead `{L : Libraries}
    (rdb : gmap string string) (prefix : string)
    (policyMap : gmap string (list string))
    (extra : gmap string (list Grant))
    (k : string) (policies : list string) (req : Request) :
  (∃ t, k = t +:+ "/") →
  Authorize (mkAuthorizer rdb prefix (<[k := policies]> policyMap) extra) req
  = Authorize (mkAuthorizer rdb prefix policyMap extra) req.
Proof.
  intros [t ->].
  assert (∀ ps,
            grantsByPolicies
              (mkAuthorizer rdb prefix (<[t +:+ "/" := policies]> policyMap)
                 extra) ps
            = grantsByPolicies (mkAuthorizer rdb prefix policyMap extra) ps)
    as Hsame by (intros ps; by apply grantsByPolicies_from_ext).
  unfold Authorize. simpl.
  rewrite lookup_insert_ne
    by (intros Heq; by apply (TrimRight_no_trailing_slash (RequestURI req) t)).
  by rewrite Hsame.
Qed.

(** ** When a request is authorized *)

Section Decision.

Context {L : Libraries}.

(** [Authorize] returns [nil] exactly when the route has policies, their
    stored lists decode, and a grant of one of the policies matches. *)
Lemma Authorize_nil_iff (a : Authorizer) (req : Request) :
  Authorize a req = None ↔
  let policies :=
    default [] (policyByRoute a !! TrimRight (RequestURI req) "/") in
  decodable a policies ∧
  ∃ p g, p ∈ policies ∧ g ∈ policyGrants a p ∧ guard_matches (Ctx req) g.
Proof.
  pose proof (Authorize_cases a req) as Hcases. simpl in *.
  set (policies :=
         default [] (policyByRoute a !! TrimRight (RequestURI req) "/")) in *.
  assert (authorized (Ctx req) (policies ≫= policyGrants a) = true ↔
          ∃ p g, p ∈ policies ∧ g ∈ policyGrants a p
                 ∧ guard_matches (Ctx req) g) as Hauth.
  { rewrite authorized_iff. split.
    - intros (g & Hin & Hm). apply list_elem_of_bind in Hin as (p & Hg & Hp).
      by exists p, g.
    - intros (p & g & Hp & Hg & Hm). exists g. split; [|done].
      apply list_elem_of_bind. by exists p. }
  destruct Hcases
    as [[Hnil Heq]|[(_ & q & data & err & Hq & Hget & Hun & Heq)
                   |[(_ & Hdec & Hno & Heq)|(_ & Hdec & Hyes & Heq)]]];
    rewrite Heq.
  - split; [done|]. intros (_ & p & g & Hp & _). rewrite Hnil in Hp.
    by apply elem_of_nil in Hp.
  - split; [done|]. intros (Hdec & _). destruct (Hdec q Hq).
    by exists data, err.
  - split; [done|]. intros (_ & Hex). apply Hauth in Hex. congruence.
  - split; [|done]. intros _. split; [done|]. by apply Hauth.
Qed.

(** Whether a stored list decodes is a matter of the store alone. *)
Lemma undecodable_store (a a' : Authorizer) (p : string) :
  raftDB a' = raftDB a → raftPrefix a' = raftPrefix a →
  undecodable a' p ↔ undecodable a p.
Proof. intros Hdb Hprefix. unfold undecodable. by rewrite Hdb, Hprefix. Qed.

Lemma policyGrants_mono (a a' : Authorizer) (p : string) :
  raftDB a' = raftDB a → raftPrefix a' = raftPrefix a →
  default [] (extraGrants a !! p) ⊆ default [] (extraGrants a' !! p) →
  policyGrants a p ⊆ policyGrants a' p.
Proof.
  intros Hdb Hprefix Hsub g. unfold policyGrants. rewrite Hdb, Hprefix.
  rewrite !elem_of_app. intros [Hg|Hg]; [left; by apply Hsub|by right].
Qed.

(** Grants added to those kept in the process never take an
    authorization away. *)
Lemma Authorize_mono (a a' : Authorizer) (req : Request) :
  raftDB a' = raftDB a → raftPrefix a' = raftPrefix a →
  policyByRoute a' = policyByRoute a →
  (∀ p, default [] (extraGrants a !! p) ⊆ default [] (extraGrants a' !! p)) →
  Authorize a req = None → Authorize a' req = None.
Proof.
  intros Hdb Hprefix Hroutes Hsub. rewrite !Authorize_nil_iff. simpl.
  rewrite Hroutes. intros (Hdec & p & g & Hp & Hg & Hm). split.
  - intros q Hq Hun. apply (Hdec q Hq). by apply (undecodable_store a a').
  - exists p, g. split; [done|]. split; [|done].
    by apply (policyGrants_mono a a').
Qed.

(** What a call of [GrantInternal] leaves as it was, whether it returns or
    panics. *)
Lemma GrantInternal_frame (a a' : Authorizer) (subj : pkix.Name)
    (now : string) (o : outcome) :
  GrantInternal a subj now = (a', o) →
  raftDB a' = raftDB a ∧ raftPrefix a' = raftPrefix a ∧
  policyByRoute a' = policyByRoute a ∧
  (∀ p, p ≠ "internal" → extraGrants a' !! p = extraGrants a !! p) ∧
  (∀ p, default [] (extraGrants a !! p) ⊆ default [] (extraGrants a' !! p)).
Proof.
  unfold GrantInternal.
  destruct (name_Format subj) as [data [err|]]; intros [= <- <-]; simpl.
  - by repeat split.
  - repeat split; try done.
    + intros p Hp. by rewrite lookup_insert_ne.
    + intros p g Hg. destruct (decide (p = "internal")) as [->|Hp].
      * rewrite lookup_insert_eq. simpl. apply elem_of_app. by left.
      * by rewrite lookup_insert_ne.
Qed.

Lemma GrantInternal_all_frame (calls : list (pkix.Name * string))
    (a a' : Authorizer) (o : outcome) :
  GrantInternal_all a calls = (a', o) →
  raftDB a' = raftDB a ∧ raftPrefix a' = raftPrefix a ∧
  policyByRoute a' = policyByRoute a ∧
  (∀ p, p ≠ "internal" → extraGrants a' !! p = extraGrants a !! p) ∧
  (∀ p, default [] (extraGrants a !! p) ⊆ default [] (extraGrants a' !! p)).
Proof.
  revert a. induction calls as [|[subj now] calls IH]; intros a; simpl.
  - intros [= <- <-]. by repeat split.
  - destruct (GrantInternal a subj now) as [a1 o1] eqn:Hcall.
    destruct (GrantInternal_frame a a1 subj now o1 Hcall)
      as (Hdb & Hprefix & Hroutes & Hother & Hsub).
    destruct o1 as [|err].
    + intros Hrest.
      destruct (IH a1 Hrest) as (Hdb' & Hprefix' & Hroutes' & Hother' & Hsub').
      repeat split; try congruence.
      * intros p Hp. rewrite Hother' by done. by apply Hother.
      * intros p. etransitivity; [apply Hsub|apply Hsub'].
    + intros [= <- <-]. by repeat split.
Qed.

End Decision.

(** ** More on registration and fetching *)

(** X13: on an authorizer made by [NewAuthorizer], after any run of
    [GrantInternal] calls, a route that asks for [public] among its
    policies authorizes every request, whatever it presents, as long as the
    stored lists of the policies of the route decode: the builtin [any]
    grant of [public] is never removed. *)
Theorem X13_public_route_authorizes_everyone `{L : Libraries}
    (rdb : gmap string string) (prefix : string)
    (policyMap : gmap string (list string))
    (calls : list (pkix.Name * string)) (a : Authorizer) (o : outcome)
    (req : Request) (policies : list string) :
  GrantInternal_all (NewAuthorizer rdb prefix policyMap) calls = (a, o) →
  policyMap !! TrimRight (RequestURI req) "/" = Some policies →
  "public" ∈ policies →
  decodable a policies →
  Authorize a req = None.
Proof.
  intros Hrun Hroute Hpublic Hdec.
  destruct (GrantInternal_all_frame calls _ a o Hrun)
    as (_ & _ & Hroutes & _ & Hsub).
  apply Authorize_nil_iff. simpl. rewrite Hroutes. simpl. rewrite Hroute.
  split; [done|].
  exists "public", (mkGrant "any" EmptyString "public" EmptyString).
  split; [done|]. split; [|by apply matches_any].
  unfold policyGrants. apply elem_of_app. left.
  apply (Hsub "public"). simpl. rewrite lookup_insert_eq. simpl. left.
Qed.

(** X14: [GrantInternal] never takes an authorization away: a request that
    was authorized before the call, whether the call returns or panics, is
    authorized after it. *)
Theorem X14_GrantInternal_never_revokes `{L : Libraries}
    (a a' : Authorizer) (subj : pkix.Name) (now : string) (o : outcome)
    (req : Request) :
  GrantInternal a subj now = (a', o) →
  Authorize a req = None →
  Authorize a' req = None.
Proof.
  intros Hcall.
  destruct (GrantInternal_frame a a' subj now o Hcall)
    as (Hdb & Hprefix & Hroutes & _ & Hsub).
  by apply Authorize_mono.
Qed.

(** X15: [GrantInternal] changes the answer only on routes that ask for
    [internal]: for a request whose route does not have [internal] among
    its policies, [Authorize] returns after the call what it returned
    before, error included. *)
Theorem X15_GrantInternal_leaves_other_routes `{L : Libraries}
    (a a' : Authorizer) (subj : pkix.Name) (now : string) (o : outcome)
    (req : Request) :
  GrantInternal a subj now = (a', o) →
  "internal" ∉ default [] (policyByRoute a !! TrimRight (RequestURI req) "/") →
  Authorize a' req = Authorize a req.
Proof.
  intros Hcall Hnot.
  destruct (GrantInternal_frame a a' subj now o Hcall)
    as (Hdb & Hprefix & Hroutes & Hother & _).
  unfold Authorize. rewrite Hroutes.
  set (policies :=
         default [] (policyByRoute a !! TrimRight (RequestURI req) "/")) in *.
  assert (grantsByPolicies a' policies = grantsByPolicies a policies) as ->;
    [|done].
  apply grantsByPolicies_from_ext; try done.
  intros p Hp. apply Hother. intros ->. done.
Qed.

(** X16: a peer is admitted by the registration of its name: when the
    subject formats to data that parse to a pattern, and a certificate of
    the request satisfies this pattern, then after [GrantInternal] every
    route that asks for [internal] authorizes the request, as long as the
    stored lists of the policies of the route decode. *)
Theorem X16_GrantInternal_admits_matching_peer `{L : Libraries}
    (a : Authorizer) (subj pattern : pkix.Name) (now data : string)
    (cert : Certificate) (req : Request) (policies : list string) :
  name_Format subj = (data, None) →
  name_Parse data = (pattern, None) →
  cert ∈ X509Certs (Ctx req) →
  matchesX509 pattern (Subject cert) = true →
  policyByRoute a !! TrimRight (RequestURI req) "/" = Some policies →
  "internal" ∈ policies →
  decodable a policies →
  Authorize (fst (GrantInternal a subj now)) req = None.
Proof.
  intros Hfmt Hparse Hcert Hm Hroute Hint Hdec.
  unfold GrantInternal. rewrite Hfmt. simpl.
  apply Authorize_nil_iff. simpl. rewrite Hroute. simpl. split; [exact Hdec|].
  exists "internal", (mkGrant "x509" data "internal" now).
  split; [done|]. split.
  - unfold policyGrants. simpl. rewrite lookup_insert_eq. simpl.
    apply elem_of_app. left. apply elem_of_app. right. left.
  - by apply (matches_x509 _ _ pattern cert).
Qed.

(** X17: a run of [GrantInternal] calls that all return appends one grant
    per call, in the order of the calls, to the grants of [internal] kept
    in the process; nothing is merged or dropped, so a subject registered
    twice is kept twice. *)
Theorem X17_GrantInternal_all_appends_in_order `{L : Libraries}
    (calls : list (pkix.Name * string)) (a a' : Authorizer) :
  GrantInternal_all a calls = (a', Returned) →
  default [] (extraGrants a' !! "internal")
  = default [] (extraGrants a !! "internal") ++ (internalGrant <$> calls).
Proof.
  revert a. induction calls as [|[subj now] calls IH]; intros a; simpl.
  - intros [= <-]. by rewrite app_nil_r.
  - unfold GrantInternal at 1.
    destruct (name_Format subj) as [data [err|]] eqn:Hfmt; [done|].
    intros Hrest. rewrite (IH _ Hrest). simpl.
    rewrite lookup_insert_eq. simpl. rewrite <- app_assoc. simpl.
    unfold internalGrant at 2. simpl. by rewrite Hfmt.
Qed.

Section Composition.

Context {L : Libraries}.

(** The loop of [grantsByPolicies] over two lists of policies in a row. *)
Lemma grantsByPolicies_from_app (a : Authorizer) (ps1 ps2 : list string)
    (grants : list Grant) :
  grantsByPolicies_from a grants (ps1 ++ ps2)
  = match grantsByPolicies_from a grants ps1 with
    | (grants1, None) => grantsByPolicies_from a grants1 ps2
    | (grants1, Some err) => (grants1, Some err)
    end.
Proof.
  revert grants. induction ps1 as [|p ps1 IH]; intros grants; [done|].
  rewrite <- app_comm_cons. cbn [grantsByPolicies_from].
  destruct (raftDB a !! (raftPrefix a +:+ p)) as [data|]; [|apply IH].
  destruct (proto_Unmarshal data (mkGrantList [])) as [grantList [err|]];
    [done|apply IH].
Qed.

(** The grants collected before the loop are kept in front of what the
    loop collects; an error does not depend on them. *)
Lemma grantsByPolicies_from_acc (a : Authorizer) (policies : list string)
    (grants : list Grant) :
  grantsByPolicies_from a grants policies
  = match grantsByPolicies_from a [] policies with
    | (found, None) => (grants ++ found, None)
    | (_, Some err) => ([], Some err)
    end.
Proof.
  pose proof (grantsByPolicies_from_error_store a a policies [] grants
                eq_refl eq_refl) as Hsnd.
  destruct (grantsByPolicies_from_cases a policies [])
    as [[Hok Hall]|(p & data & err & Hin & Hget & Hun & Herr)];
  destruct (grantsByPolicies_from_cases a policies grants)
    as [[Hok' Hall']|(p' & data' & err' & Hin' & Hget' & Hun' & Herr')].
  - by rewrite Hok, Hok'.
  - destruct (Hall p' Hin'). by exists data', err'.
  - destruct (Hall' p Hin). by exists data, err.
  - rewrite Herr, Herr' in *. simpl in Hsnd. by rewrite Hsnd.
Qed.

End Composition.

(** X18: fetching the grants of two lists of policies in a row is fetching
    them one after the other: the grants of the first list come first;
    an error in the first list is returned without looking at the second,
    and an error in the second list drops the grants of the first. *)
Theorem X18_grantsByPolicies_of_concatenation `{L : Libraries}
    (a : Authorizer) (ps1 ps2 : list string) :
  grantsByPolicies a (ps1 ++ ps2)
  = match grantsByPolicies a ps1 with
    | (_, Some err) => ([], Some err)
    | (grants1, None) =>
        match grantsByPolicies a ps2 with
        | (_, Some err) => ([], Some err)
        | (grants2, None) => (grants1 ++ grants2, None)
        end
    end.
Proof.
  unfold grantsByPolicies. rewrite grantsByPolicies_from_app.
  destruct (grantsByPolicies_from_cases a ps1 [])
    as [[Hok _]|(p & data & err & _ & _ & _ & Herr)].
  - rewrite Hok. apply grantsByPolicies_from_acc.
  - by rewrite Herr.
Qed.

(** X19: whether a request is authorized does not depend on the order of
    the policies of its route, nor on a policy being listed more than once:
    two policy maps that give the route the same set of policies authorize
    the same requests. *)
Theorem X19_Authorize_same_policies_same_decision `{L : Libraries}
    (rdb : gmap string string) (prefix : string)
    (policyMap policyMap' : gmap string (list string))
    (extra : gmap string (list Grant)) (req : Request)
    (policies policies' : list string) :
  policyMap !! TrimRight (RequestURI req) "/" = Some policies →
  policyMap' !! TrimRight (RequestURI req) "/" = Some policies' →
  (∀ p, p ∈ policies ↔ p ∈ policies') →
  Authorize (mkAuthorizer rdb prefix policyMap extra) req = None ↔
  Authorize (mkAuthorizer rdb prefix policyMap' extra) req = None.
Proof.
  intros Hroute Hroute' Hsame. rewrite !Authorize_nil_iff. simpl.
  rewrite Hroute, Hroute'. simpl. unfold decodable.
  split; intros (Hdec & p & g & Hp & Hg & Hm); (split;
    [intros q Hq; apply Hdec; by apply Hsame
    |exists p, g; split; [by apply Hsame|by split]]).
Qed.

(** ** The further theorems at concrete inputs *)

(** Closes the goal [decodable a policies] for a concrete authorizer and a
    concrete list of policies, by running the lookups and the decoder. *)
Ltac run_decodable :=
  let p := fresh "p" in
  let Hp := fresh "Hp" in
  let data := fresh "data" in
  let err := fresh "err" in
  let Hget := fresh "Hget" in
  let Herr := fresh "Herr" in
  intros p Hp (data & err & Hget & Herr);
  repeat (apply elem_of_cons in Hp as [-> | Hp]);
  [ .. | apply elem_of_nil in Hp; destruct Hp ];
  vm_compute in Hget;
  first [ discriminate Hget
        | injection Hget as <-; vm_compute in Herr; discriminate Herr ].

Lemma X2_witness :
  matchesX509 Examples.peerName Scenarios.peerEng = true ∧
  matchesX509 Scenarios.peerEng Scenarios.peerEngOps = true ∧
  matchesX509 Examples.peerName Scenarios.peerEngOps = true.
Proof.
  split; [reflexivity|]. split; [reflexivity|].
  apply (X2_matchesX509_weaker_pattern_accepts_more
           Examples.peerName Scenarios.peerEng Scenarios.peerEngOps);
    reflexivity.
Defined.

Lemma X5_witness :
  [Examples.tokenGrant] ⊆ [Examples.unknownGrant; Examples.tokenGrant] ∧
  authorized (L := Examples.libs) Examples.withToken [Examples.tokenGrant]
    = true ∧
  authorized (L := Examples.libs) Examples.withToken
    [Examples.unknownGrant; Examples.tokenGrant] = true.
Proof.
  assert ([Examples.tokenGrant]
          ⊆ [Examples.unknownGrant; Examples.tokenGrant]) as Hsub.
  { intros g Hg. apply elem_of_cons in Hg as [-> | Hg].
    - right. left.
    - apply elem_of_nil in Hg. destruct Hg. }
  split; [exact Hsub|]. split; [reflexivity|].
  apply (X5_authorized_monotone_in_grants (L := Examples.libs)
           Examples.withToken [Examples.tokenGrant]
           [Examples.unknownGrant; Examples.tokenGrant] Hsub).
  reflexivity.
Defined.

Lemma X6_witness :
  Token Scenarios.withPeerLocal = Token Scenarios.withPeer ∧
  X509Certs Scenarios.withPeer ⊆ X509Certs Scenarios.withPeerLocal ∧
  (Localhost Scenarios.withPeer = true →
   Localhost Scenarios.withPeerLocal = true) ∧
  authorized (L := Examples.libs) Scenarios.withPeer [Scenarios.peerGrant]
    = true ∧
  authorized (L := Examples.libs) Scenarios.withPeerLocal
    [Scenarios.peerGrant] = true.
Proof.
  assert (X509Certs Scenarios.withPeer ⊆ X509Certs Scenarios.withPeerLocal)
    as Hsub.
  { intros c Hc. apply elem_of_cons in Hc as [-> | Hc].
    - right. left.
    - apply elem_of_nil in Hc. destruct Hc. }
  split; [reflexivity|]. split; [exact Hsub|].
  split; [intros _; reflexivity|]. split; [reflexivity|].
  apply (X6_authorized_monotone_in_credentials (L := Examples.libs)
           Scenarios.withPeer Scenarios.withPeerLocal [Scenarios.peerGrant]
           eq_refl Hsub (λ _, eq_refl)).
  reflexivity.
Defined.

Lemma X7_witness :
  GuardType Scenarios.localhostGrant = "localhost" ∧
  authorized (L := Examples.libs) Scenarios.fromLocalhost
    ([Examples.tokenGrant] ++ Scenarios.localhostGrant :: [])
  = Localhost Scenarios.fromLocalhost
    || authorized (L := Examples.libs) Scenarios.fromLocalhost
         ([Examples.tokenGrant] ++ []).
Proof.
  split; [reflexivity|].
  apply (X7_localhost_grant_decides_by_flag (L := Examples.libs)
           Scenarios.localhostGrant Scenarios.fromLocalhost
           [Examples.tokenGrant] []).
  reflexivity.
Defined.

Lemma X8_witness :
  GuardType Scenarios.anyGrant = "any" ∧
  Scenarios.anyGrant ∈ [Examples.tokenGrant; Scenarios.anyGrant] ∧
  authorized (L := Examples.libs) Examples.anonymous
    [Examples.tokenGrant; Scenarios.anyGrant] = true.
Proof.
  assert (Scenarios.anyGrant ∈ [Examples.tokenGrant; Scenarios.anyGrant])
    as Hin by (right; left).
  split; [reflexivity|]. split; [exact Hin|].
  apply (X8_any_grant_authorizes_everyone (L := Examples.libs)
           Scenarios.anyGrant Examples.anonymous
           [Examples.tokenGrant; Scenarios.anyGrant] eq_refl Hin).
Defined.

(** The route [/config] asks for [monitoring], whose stored list does not
    decode, and for [public], whose builtin grant would match. *)
Lemma X10_witness :
  policyByRoute Scenarios.authorizer !! TrimRight "/config" "/"
    = Some ["monitoring"; "public"] ∧
  "monitoring" ∈ ["monitoring"; "public"] ∧
  undecodable (L := Examples.libs) Scenarios.authorizer "monitoring" ∧
  ∃ err,
    Authorize (L := Examples.libs) Scenarios.authorizer
      (mkRequest "/config" Examples.anonymous) = Some (Wrap (Wrap err)).
Proof.
  assert (undecodable (L := Examples.libs) Scenarios.authorizer "monitoring")
    as Hun.
  { exists "garbage", (New "proto: cannot parse").
    split; vm_compute; reflexivity. }
  split; [vm_compute; reflexivity|]. split; [left|]. split; [exact Hun|].
  apply (X10_undecodable_list_denies_every_request (L := Examples.libs)
           Scenarios.authorizer (mkRequest "/config" Examples.anonymous)
           ["monitoring"; "public"] "monitoring");
    [vm_compute; reflexivity|left|exact Hun].
Defined.

Lemma X11_witness :
  only_slashes "//" ∧
  Authorize (L := Examples.libs) Scenarios.authorizer
    (mkRequest ("/info" +:+ "//") Examples.anonymous)
  = Authorize (L := Examples.libs) Scenarios.authorizer
      (mkRequest "/info" Examples.anonymous).
Proof.
  assert (only_slashes "//") as Hs.
  { unfold only_slashes. simpl. repeat constructor. }
  split; [exact Hs|].
  apply (X11_Authorize_ignores_trailing_slashes (L := Examples.libs)
           Scenarios.authorizer "/info" "//" Examples.anonymous Hs).
Defined.

Lemma X12_witness :
  (∃ t, "/status/" = t +:+ "/") ∧
  Authorize (L := Examples.libs)
    (mkAuthorizer Scenarios.store "grants/"
       (<["/status/" := ["public"]]> Scenarios.routes)
       (extraGrants Scenarios.authorizer))
    (mkRequest "/status/" Examples.anonymous)
  = Authorize (L := Examples.libs)
      (mkAuthorizer Scenarios.store "grants/" Scenarios.routes
         (extraGrants Scenarios.authorizer))
      (mkRequest "/status/" Examples.anonymous).
Proof.
  assert (∃ t, "/status/" = t +:+ "/") as Hk by (exists "/status"; reflexivity).
  split; [exact Hk|].
  apply (X12_route_key_with_trailing_slash_is_dead (L := Examples.libs)
           Scenarios.store "grants/" Scenarios.routes
           (extraGrants Scenarios.authorizer) "/status/" ["public"]
           (mkRequest "/status/" Examples.anonymous) Hk).
Defined.

Lemma X13_witness :
  GrantInternal_all (L := Examples.libs)
    (NewAuthorizer Scenarios.store "grants/" Scenarios.routes)
    [Scenarios.peerCall] = (Scenarios.registered, Returned) ∧
  Scenarios.routes !! TrimRight "/info" "/" = Some ["public"] ∧
  "public" ∈ ["public"] ∧
  decodable (L := Examples.libs) Scenarios.registered ["public"] ∧
  Authorize (L := Examples.libs) Scenarios.registered
    (mkRequest "/info" Examples.anonymous) = None.
Proof.
  assert (decodable (L := Examples.libs) Scenarios.registered ["public"])
    as Hdec by run_decodable.
  split; [vm_compute; reflexivity|]. split; [vm_compute; reflexivity|].
  split; [left|]. split; [exact Hdec|].
  apply (X13_public_route_authorizes_everyone (L := Examples.libs)
           Scenarios.store "grants/" Scenarios.routes [Scenarios.peerCall]
           Scenarios.registered Returned
           (mkRequest "/info" Examples.anonymous) ["public"]);
    [vm_compute; reflexivity|vm_compute; reflexivity|left|exact Hdec].
Defined.

Lemma X14_witness :
  GrantInternal (L := Examples.libs) Scenarios.authorizer Examples.peerName
    "2017-03-01T00:00:00Z" = (Scenarios.registered, Returned) ∧
  Authorize (L := Examples.libs) Scenarios.authorizer
    (mkRequest "/accounts/create" Examples.withToken) = None ∧
  Authorize (L := Examples.libs) Scenarios.registered
    (mkRequest "/accounts/create" Examples.withToken) = None.
Proof.
  split; [vm_compute; reflexivity|]. split; [vm_compute; reflexivity|].
  apply (X14_GrantInternal_never_revokes (L := Examples.libs)
           Scenarios.authorizer Scenarios.registered Examples.peerName
           "2017-03-01T00:00:00Z" Returned
           (mkRequest "/accounts/create" Examples.withToken));
    vm_compute; reflexivity.
Defined.

Lemma X15_witness :
  GrantInternal (L := Examples.libs) Scenarios.authorizer Examples.peerName
    "2017-03-01T00:00:00Z" = (Scenarios.registered, Returned) ∧
  ("internal" ∉ default [] (policyByRoute Scenarios.authorizer
                              !! TrimRight "/config" "/")) ∧
  Authorize (L := Examples.libs) Scenarios.registered
    (mkRequest "/config" Scenarios.withPeer)
  = Authorize (L := Examples.libs) Scenarios.authorizer
      (mkRequest "/config" Scenarios.withPeer).
Proof.
  assert ("internal" ∉ default [] (policyByRoute Scenarios.authorizer
                                     !! TrimRight "/config" "/")) as Hnot.
  { apply (bool_decide_unpack _). vm_compute. exact I. }
  split; [vm_compute; reflexivity|]. split; [exact Hnot|].
  apply (X15_GrantInternal_leaves_other_routes (L := Examples.libs)
           Scenarios.authorizer Scenarios.registered Examples.peerName
           "2017-03-01T00:00:00Z" Returned
           (mkRequest "/config" Scenarios.withPeer));
    [vm_compute; reflexivity|exact Hnot].
Defined.

(** The peer registers the name [CN=peer]; a certificate with that common
    name and one organizational unit is admitted on [/accounts/create]. *)
Lemma X16_witness :
  name_Format (Libraries := Examples.libs) Examples.peerName
    = ("CN=peer", None) ∧
  name_Parse (Libraries := Examples.libs) "CN=peer"
    = (Examples.peerName, None) ∧
  mkCertificate Scenarios.peerEng ∈ X509Certs Scenarios.withPeer ∧
  matchesX509 Examples.peerName Scenarios.peerEng = true ∧
  policyByRoute Scenarios.authorizer !! TrimRight "/accounts/create" "/"
    = Some ["client-readwrite"; "internal"] ∧
  "internal" ∈ ["client-readwrite"; "internal"] ∧
  decodable (L := Examples.libs) Scenarios.authorizer
    ["client-readwrite"; "internal"] ∧
  Authorize (L := Examples.libs) Scenarios.authorizer
    (mkRequest "/accounts/create" Scenarios.withPeer)
    = Some ErrNotAuthorized ∧
  Authorize (L := Examples.libs)
    (fst (GrantInternal (L := Examples.libs) Scenarios.authorizer
            Examples.peerName "2017-03-01T00:00:00Z"))
    (mkRequest "/accounts/create" Scenarios.withPeer) = None.
Proof.
  assert (decodable (L := Examples.libs) Scenarios.authorizer
            ["client-readwrite"; "internal"]) as Hdec by run_decodable.
  assert (mkCertificate Scenarios.peerEng ∈ X509Certs Scenarios.withPeer)
    as Hcert by left.
  assert ("internal" ∈ ["client-readwrite"; "internal"])
    as Hin by (right; left).
  split; [reflexivity|]. split; [reflexivity|]. split; [exact Hcert|].
  split; [reflexivity|]. split; [vm_compute; reflexivity|].
  split; [exact Hin|]. split; [exact Hdec|].
  split; [vm_compute; reflexivity|].
  apply (X16_GrantInternal_admits_matching_peer (L := Examples.libs)
           Scenarios.authorizer Examples.peerName Examples.peerName
           "2017-03-01T00:00:00Z" "CN=peer"
           (mkCertificate Scenarios.peerEng)
           (mkRequest "/accounts/create" Scenarios.withPeer)
           ["client-readwrite"; "internal"]);
    [reflexivity|reflexivity|exact Hcert|reflexivity
    |vm_compute; reflexivity|exact Hin|exact Hdec].
Defined.

(** The same peer registered twice is kept twice. *)
Lemma X17_witness :
  GrantInternal_all (L := Examples.libs) Scenarios.authorizer
    [Scenarios.peerCall; Scenarios.peerCall]
  = (fst (GrantInternal (L := Examples.libs) Scenarios.registered
            Examples.peerName "2017-03-01T00:00:00Z"), Returned) ∧
  default [] (extraGrants
                (fst (GrantInternal (L := Examples.libs) Scenarios.registered
                        Examples.peerName "2017-03-01T00:00:00Z"))
              !! "internal")
  = [Scenarios.peerGrant; Scenarios.peerGrant].
Proof.
  split; [vm_compute; reflexivity|].
  apply (X17_GrantInternal_all_appends_in_order (L := Examples.libs)
           [Scenarios.peerCall; Scenarios.peerCall] Scenarios.authorizer).
  vm_compute; reflexivity.
Defined.

Lemma X19_witness :
  Scenarios.routes !! TrimRight "/accounts/create" "/"
    = Some ["client-readwrite"; "internal"] ∧
  Scenarios.routes' !! TrimRight "/accounts/create" "/"
    = Some ["internal"; "client-readwrite"; "internal"] ∧
  (∀ p, p ∈ ["client-readwrite"; "internal"]
        ↔ p ∈ ["internal"; "client-readwrite"; "internal"]) ∧
  (Authorize (L := Examples.libs)
     (mkAuthorizer Scenarios.store "grants/" Scenarios.routes
        (extraGrants Scenarios.registered))
     (mkRequest "/accounts/create" Scenarios.withPeer) = None ↔
   Authorize (L := Examples.libs)
     (mkAuthorizer Scenarios.store "grants/" Scenarios.routes'
        (extraGrants Scenarios.registered))
     (mkRequest "/accounts/create" Scenarios.withPeer) = None).
Proof.
  assert (∀ p : string, p ∈ ["client-readwrite"; "internal"]
                        ↔ p ∈ ["internal"; "client-readwrite"; "internal"])
    as Hsame.
  { intros p. rewrite !elem_of_cons. tauto. }
  split; [vm_compute; reflexivity|]. split; [vm_compute; reflexivity|].
  split; [exact Hsame|].
  apply (X19_Authorize_same_policies_same_decision (L := Examples.libs)
           Scenarios.store "grants/" Scenarios.routes Scenarios.routes'
           (extraGrants Scenarios.registered)
           (mkRequest "/accounts/create" Scenarios.withPeer)
           ["client-readwrite"; "internal"]
           ["internal"; "client-readwrite"; "internal"]);
    [vm_compute; reflexivity|vm_compute; reflexivity|exact Hsame].
Defined.

(** ** What a decision reads *)

(** The loop of [grantsByPolicies] reads the store and the grants kept in
    the process at its policies only. *)
Lemma grantsByPolicies_from_local `{L : Libraries} (a a' : Authorizer)
    (policies : list string) (grants : list Grant) :
  raftPrefix a' = raftPrefix a →
  (∀ p, p ∈ policies →
     raftDB a' !! (raftPrefix a +:+ p) = raftDB a !! (raftPrefix a +:+ p) ∧
     extraGrants a' !! p = extraGrants a !! p) →
  grantsByPolicies_from a' grants policies
  = grantsByPolicies_from a grants policies.
Proof.
  intros Hprefix. revert grants.
  induction policies as [|p policies IH]; intros grants Hsame; [done|].
  cbn [grantsByPolicies_from].
  destruct (Hsame p) as [Hdb Hextra]; [left|].
  rewrite Hprefix, Hdb, Hextra.
  assert (∀ q, q ∈ policies →
            raftDB a' !! (raftPrefix a +:+ q) = raftDB a !! (raftPrefix a +:+ q) ∧
            extraGrants a' !! q = extraGrants a !! q)
    as Hrest by (intros q Hq; apply Hsame; by right).
  destruct (raftDB a !! (raftPrefix a +:+ p)) as [data|]; [|by apply IH].
  destruct (proto_Unmarshal data (mkGrantList [])) as [grantList [err|]];
    [done|by apply IH].
Qed.

(** X20: the answer to a request reads the store and the grants kept in
    the process at the policies of its route only: two authorizers with
    the same policy map and prefix that agree there give the same answer,
    so a grant of a policy the route does not ask for never counts, and a
    broken list of such a policy never hurts. *)
Theorem X20_Authorize_reads_route_policies_only `{L : Libraries}
    (a a' : Authorizer) (req : Request) :
  policyByRoute a' = policyByRoute a →
  raftPrefix a' = raftPrefix a →
  (∀ p, p ∈ default [] (policyByRoute a !! TrimRight (RequestURI req) "/") →
     raftDB a' !! (raftPrefix a +:+ p) = raftDB a !! (raftPrefix a +:+ p) ∧
     extraGrants a' !! p = extraGrants a !! p) →
  Authorize a' req = Authorize a req.
Proof.
  intros Hroutes Hprefix Hsame. unfold Authorize, grantsByPolicies.
  rewrite Hroutes.
  by rewrite (grantsByPolicies_from_local a a' _ [] Hprefix Hsame).
Qed.

(** X21: an authorizer made by [NewAuthorizer] keeps grants for [public]
    only: a route with policies, none of them [public], for which the
    store holds nothing, refuses every request with [ErrNotAuthorized],
    whatever the request presents. *)
Theorem X21_new_authorizer_denies_by_default `{L : Libraries}
    (rdb : gmap string string) (prefix : string)
    (policyMap : gmap string (list string)) (req : Request)
    (policies : list string) :
  policyMap !! TrimRight (RequestURI req) "/" = Some policies →
  policies ≠ [] →
  "public" ∉ policies →
  (∀ p, p ∈ policies → rdb !! (prefix +:+ p) = None) →
  Authorize (NewAuthorizer rdb prefix policyMap) req = Some ErrNotAuthorized.
Proof.
  intros Hroute Hne Hpublic Hempty.
  pose proof (Authorize_cases (NewAuthorizer rdb prefix policyMap) req)
    as Hcases.
  simpl in Hcases. rewrite Hroute in Hcases. simpl in Hcases.
  destruct Hcases
    as [[Hnil _]|[(_ & q & data & err & Hq & Hget & _)
                 |[(_ & _ & _ & Heq)|(_ & _ & Hyes & _)]]];
    [done| |done|].
  - rewrite (Hempty q Hq) in Hget. done.
  - apply authorized_iff in Hyes as (g & Hin & _).
    apply list_elem_of_bind in Hin as (p & Hg & Hp).
    unfold policyGrants in Hg. simpl in Hg.
    rewrite (Hempty p Hp), app_nil_r in Hg.
    rewrite lookup_insert_ne in Hg by (intros <-; done).
    rewrite lookup_empty in Hg. by apply elem_of_nil in Hg.
Qed.

Lemma X20_witness :
  policyByRoute
    (mkAuthorizer Scenarios.store' "grants/" Scenarios.routes
       (extraGrants Scenarios.authorizer))
  = policyByRoute Scenarios.authorizer ∧
  raftPrefix
    (mkAuthorizer Scenarios.store' "grants/" Scenarios.routes
       (extraGrants Scenarios.authorizer))
  = raftPrefix Scenarios.authorizer ∧
  Authorize (L := Examples.libs)
    (mkAuthorizer Scenarios.store' "grants/" Scenarios.routes
       (extraGrants Scenarios.authorizer))
    (mkRequest "/accounts/create" Examples.withToken)
  = Authorize (L := Examples.libs) Scenarios.authorizer
      (mkRequest "/accounts/create" Examples.withToken).
Proof.
  split; [reflexivity|]. split; [reflexivity|].
  apply (X20_Authorize_reads_route_policies_only (L := Examples.libs)
           Scenarios.authorizer
           (mkAuthorizer Scenarios.store' "grants/" Scenarios.routes
              (extraGrants Scenarios.authorizer))
           (mkRequest "/accounts/create" Examples.withToken));
    [reflexivity|reflexivity|].
  intros p Hp. vm_compute in Hp.
  repeat (apply elem_of_cons in Hp as [-> | Hp]);
    [ .. | apply elem_of_nil in Hp; destruct Hp ];
    split; vm_compute; reflexivity.
Defined.

Lemma X21_witness :
  Scenarios.privateRoutes !! TrimRight "/accounts/create" "/"
    = Some ["client-readwrite"; "internal"] ∧
  ["client-readwrite"; "internal"] ≠ @nil string ∧
  ("public" ∉ ["client-readwrite"; "internal"]) ∧
  (∀ p, p ∈ ["client-readwrite"; "internal"] →
        (∅ : gmap string string) !! ("grants/" +:+ p) = None) ∧
  Authorize (L := Examples.libs)
    (NewAuthorizer ∅ "grants/" Scenarios.privateRoutes)
    (mkRequest "/accounts/create" Scenarios.withPeerLocal)
  = Some ErrNotAuthorized.
Proof.
  assert ("public" ∉ ["client-readwrite"; "internal"]) as Hnot.
  { apply (bool_decide_unpack _). vm_compute. exact I. }
  assert (∀ p, p ∈ ["client-readwrite"; "internal"] →
               (∅ : gmap string string) !! ("grants/" +:+ p) = None) as Hempty.
  { intros p _. apply lookup_empty. }
  split; [vm_compute; reflexivity|]. split; [discriminate|].
  split; [exact Hnot|]. split; [exact Hempty|].
  apply (X21_new_authorizer_denies_by_default (L := Examples.libs)
           ∅ "grants/" Scenarios.privateRoutes
           (mkRequest "/accounts/create" Scenarios.withPeerLocal)
           ["client-readwrite"; "internal"]);
    [vm_compute; reflexivity|discriminate|exact Hnot|exact Hempty].
Defined.
